(** * appandrew.py: column normalisation and row annotation

    A shallow embedding of the data pipeline of [appandrew.py] (the BESS
    table viewer): [normalize_flag], [row_flag], [safe_str],
    [render_sources], [normalize_columns] and [load_df], with the parts of
    Python, [re], pandas and Streamlit they call.

    Conventions.
    - A Python [str] is a [string]: one [ascii] per code point, so the model
      covers the code points below U+0100.  Within that range [str.strip],
      [str.lower], the regex class [\s] and [re.IGNORECASE] are modelled
      exactly.
    - A DataFrame is an object in a store ([heap]); [df.copy()],
      [df.rename] and [df[keys]] allocate, [df.columns = ...] and
      [df[key] = value] mutate in place.
    - Streamlit calls are recorded in order in a log. *)

From Stdlib Require Import ZArith Floats.SpecFloat Ascii String.
From stdpp Require Import base option list strings gmap pretty.
From stdpp Require Import sorting.

Set Default Proof Using "Type".

(** [simpl] unfolds an append whose first argument starts with a code
    point. *)
#[local] Arguments String.append !_ _ / : simpl nomatch.

(** ** Python strings *)

Module PyStr.

Definition ord (c : ascii) : N := N_of_ascii c.

(** [str.isspace] on one code point: TAB..CR, FS..US, SPACE, NEL, NBSP. *)
Definition isspace (c : ascii) : bool :=
  let n := ord c in
  ((9 <=? n) && (n <=? 13) || (28 <=? n) && (n <=? 32)
   || (n =? 133) || (n =? 160))%N.

(** [str.lower] on one code point: A..Z, and the upper-case letters
    U+00C0..U+00DE except the multiplication sign U+00D7. *)
Definition lower_char (c : ascii) : ascii :=
  let n := ord c in
  if ((65 <=? n) && (n <=? 90)
      || (192 <=? n) && (n <=? 222) && negb (n =? 215))%N
  then ascii_of_N (n + 32) else c.

Fixpoint lower (s : string) : string :=
  match s with
  | EmptyString => EmptyString
  | String c s' => String (lower_char c) (lower s')
  end.

(** [all(p(c) for c in s)] *)
Fixpoint all_chars (p : ascii → bool) (s : string) : bool :=
  match s with
  | EmptyString => true
  | String c s' => p c && all_chars p s'
  end.

Fixpoint lstrip (s : string) : string :=
  match s with
  | EmptyString => EmptyString
  | String c s' => if isspace c then lstrip s' else s
  end.

Fixpoint rstrip (s : string) : string :=
  match s with
  | EmptyString => EmptyString
  | String c s' =>
      match rstrip s' with
      | EmptyString => if isspace c then EmptyString else String c EmptyString
      | r => String c r
      end
  end.

(** [s.strip()] *)
Definition strip (s : string) : string := rstrip (lstrip s).

(** [s[:n]] *)
Fixpoint take (n : nat) (s : string) : string :=
  match n, s with
  | S k, String c s' => String c (take k s')
  | _, _ => EmptyString
  end.

(** [s.startswith(p)] *)
Fixpoint startswith (p s : string) : bool :=
  match p, s with
  | EmptyString, _ => true
  | String a p', String b s' => bool_decide (a = b) && startswith p' s'
  | String _ _, EmptyString => false
  end.

(** The scan of [str.replace] for a pattern that is not empty: [skip]
    counts the code points of [s] still covered by the occurrence
    replaced last, so occurrences are taken left to right and never
    overlap. *)
Fixpoint replace_go (old new : string) (skip : nat) (s : string) : string :=
  match s with
  | EmptyString => EmptyString
  | String c s' =>
      match skip with
      | S k => replace_go old new k s'
      | O =>
          if startswith old s
          then new +:+ replace_go old new (String.length old - 1) s'
          else String c (replace_go old new 0 s')
      end
  end.

(** [s.replace(old, new)] for the empty [old]: [new] is put before every
    code point and at the end. *)
Fixpoint intersperse (new s : string) : string :=
  match s with
  | EmptyString => new
  | String c s' => new +:+ String c (intersperse new s')
  end.

(** [s.replace(old, new)] *)
Definition replace (old new s : string) : string :=
  match old with
  | EmptyString => intersperse new s
  | _ => replace_go old new 0 s
  end.

End PyStr.

(** ** The two regular expressions of the program *)

(** [URL_RE = re.compile(r"(https?://[^\s,]+)", re.IGNORECASE)] *)
Module URL_RE.
Import PyStr.

(** A code point of the class [[^\s,]]. *)
Definition url_char (c : ascii) : bool :=
  negb (isspace c) && negb (bool_decide (c = ","%char)).

(** One literal of the pattern under [re.IGNORECASE]. *)
Definition ci (l : ascii) (c : ascii) : bool :=
  bool_decide (lower_char c = lower_char l).

(** Consume one code point that satisfies [p]. *)
Definition eat (p : ascii → bool) (s : string) : option string :=
  match s with
  | String c s' => if p c then Some s' else None
  | EmptyString => None
  end.

(** Length of the greedy run [[^\s,]*] at the start of [s]. *)
Fixpoint run_len (s : string) : nat :=
  match s with
  | String c s' => if url_char c then S (run_len s') else 0
  | EmptyString => 0
  end.

(** [://[^\s,]+] at the start of [s]: the length matched. *)
Definition match_tail (s : string) : option nat :=
  s1 ← eat (ci ":") s;
  s2 ← eat (ci "/") s1;
  s3 ← eat (ci "/") s2;
  match run_len s3 with
  | O => None
  | n => Some (3 + n)
  end.

(** [URL_RE.match(s)]: the length of the match of
    [(https?://[^\s,]+)] at the start of [s].  The optional [s] is tried
    first (greedy), then skipped. *)
Definition match_url (s : string) : option nat :=
  s1 ← eat (ci "h") s;
  s2 ← eat (ci "t") s1;
  s3 ← eat (ci "t") s2;
  s4 ← eat (ci "p") s3;
  match eat (ci "s") s4 ≫= match_tail with
  | Some n => Some (5 + n)
  | None => n ← match_tail s4; Some (4 + n)
  end.

(** The scan of [findall]: matches are searched left to right, the next
    search starts where the last match ended ([skip] code points
    further). *)
Fixpoint scan (skip : nat) (s : string) : list string :=
  match s with
  | EmptyString => []
  | String c s' =>
      match skip with
      | S k => scan k s'
      | O =>
          match match_url s with
          | Some n => take n s :: scan (n - 1) s'
          | None => scan 0 s'
          end
      end
  end.

(** [URL_RE.findall(s)]; the pattern has one group, the whole match. *)
Definition findall (s : string) : list string := scan 0 s.

End URL_RE.

Module Re.

(** A separator of [re.split(r"[;\n]", t)]: semicolon or line feed. *)
Definition is_sep (c : ascii) : bool :=
  bool_decide (c = ";"%char) || bool_decide (c = "010"%char).

(** [re.split(r"[;\n]", s)] *)
Fixpoint split (s : string) : list string :=
  match s with
  | EmptyString => [EmptyString]
  | String c s' =>
      if is_sep c then EmptyString :: split s'
      else match split s' with
           | p :: ps => String c p :: ps
           | [] => [String c EmptyString]
           end
  end.

End Re.

(** ** Rendering of the Sources field *)

(** The calls made on the page.  The em dash U+2014 that [st.write] shows
    for an empty field lies outside the code points of [string]; the call
    that shows it is a constructor of its own. *)
Inductive st_call :=
| st_write_dash
| st_markdown (body : string).

Definition wrap_link (u : string) : string :=
  "[" +:+ u +:+ "](" +:+ u +:+ ")".

(** Lines 94-98: the loop over [urls] that rewrites [md]. *)
Definition link_part (part : string) : string :=
  let urls := URL_RE.findall part in
  fold_left (λ md u, PyStr.replace u (wrap_link u) md) urls part.

(** The body of the loop over [parts], lines 91-101. *)
Definition render_part (log : list st_call) (part : string) : list st_call :=
  let part := PyStr.strip part in
  if bool_decide (part = "") then log
  else
    let urls := URL_RE.findall part in
    match urls with
    | _ :: _ => log ++ [st_markdown ("- " +:+ link_part part)]
    | [] => log ++ [st_markdown ("- " +:+ part)]
    end.

Definition render_sources (text : string) (log : list st_call) : list st_call :=
  let t := PyStr.strip text in
  if bool_decide (t = "") then log ++ [st_write_dash]
  else fold_left render_part (Re.split t) log.

(** ** Flags *)

(** A dict display [{k1: v1, ...}] and a dict comprehension: the entries
    are stored in order, a later entry replaces an earlier one with the
    same key. *)
Definition py_dict (items : list (string * string)) : gmap string string :=
  fold_left (λ d kv, <[kv.1 := kv.2]> d) items ∅.

Definition FLAGS_items : list (string * string) :=
  [ ("Sambar Power", "g");
    ("Bradford West 100MW", "r");
    ("Bicker Fen 2 Solar", "r");
    ("Didcot Energy Park", "r");
    ("Berkswell Energy Storage", "");
    ("WELBAR ENERGY STORAGE", "g");
    ("Cellarhead 400kV Energy Storage", "r");
    ("Worset Lane Energy Hub", "r");
    ("Sundon Battery Energy Storage", "g");
    ("Capenhurst BESS", "g");
    ("Legacy", "");
    ("Monk Fryston", "g");
    ("Whitegate", "r");
    ("Iron Acton", "g");
    ("Cryogenic Battery System (Synchronous)", "g");
    ("Norwich battery storage", "");
    ("Bolney Green Energy Hub", "r");
    ("Flash Solar Farm (Staythorpe)", "g");
    ("Rushett Lane BESS", "r");
    ("Bramley co-located bess and solar", "");
    ("Fairglen BESS", "r");
    ("Goldborough Road BESS", "");
    ("Fleet EGH (Tertiary) Coxmoor Wood BESS", "r");
    ("WORSET LANE BESS", "r");
    ("Keithick Estate, California Farm solar and battery storage", "r");
    ("Pembroke BESS", "");
    ("Eggborough CCGT - OCGT - BESS", "r");
    ("Neilston 400kV Greener Grid Park", "g");
    ("Coylton 275kV Greener Grid Park", "g");
    ("Sizing John (Rainhill)", "g");
    ("Harker Green Energy Centre", "");
    ("Zenobe Blackhillock 300 MW", "g") ].

Definition FLAGS : gmap string string := py_dict FLAGS_items.

(** [x or ""] is [x] on a [str]: the only falsy [str] is the empty one. *)
Definition normalize_flag (x : string) : string :=
  let x := PyStr.lower (PyStr.strip x) in
  if bool_decide (x ∈ ["g"; "r"]) then x else "".

(** The body of [row_flag], lines 67-69, with the module-level dict that
    it reads at each call as an argument. *)
Definition row_flag_on (flags : gmap string string) (project_name : string) : string :=
  let key := PyStr.strip project_name in
  normalize_flag (default "" (flags !! key)).

Definition row_flag (project_name : string) : string :=
  row_flag_on FLAGS project_name.

(** ** Cell values *)

(** What a cell or a header of the sheet holds once pandas has read it.
    [VFloat] stands for Python and NumPy floats alike ([numpy.float64] is a
    subclass of [float]); [VObj] is an object of any other class (a
    [Timestamp], [NaT]), carried as the text that [str] prints for it. *)
Inductive value :=
| VNone
| VBool (b : bool)
| VInt (n : Z)
| VFloat (x : spec_float)
| VStr (s : string)
| VObj (text : string).

Global Instance spec_float_eq_dec : EqDecision spec_float.
Proof. solve_decision. Defined.

Global Instance value_eq_dec : EqDecision value.
Proof. solve_decision. Defined.

(** [pd.isna] on a float *)
Definition isna (x : spec_float) : bool :=
  match x with
  | S754_nan => true
  | _ => false
  end.

(** ** DataFrames *)

(** A DataFrame: the length of its index and its columns in order, each a
    label and one cell per row.  Labels may repeat. *)
Record DataFrame := mk_df {
  nrows : nat;
  cols : list (value * list value)
}.

Global Instance DataFrame_eq_dec : EqDecision DataFrame.
Proof. solve_decision. Defined.

Module Pandas.

(** [df.columns] *)
Definition columns (d : DataFrame) : list value := (cols d).*1.

(** [df.columns = labels]; a [ValueError] when the lengths differ. *)
Definition set_columns (labels : list value) (d : DataFrame) : option DataFrame :=
  if decide (length labels = length (cols d))
  then Some (mk_df (nrows d) (zip labels (cols d).*2))
  else None.

(** [key in df.columns] *)
Definition contains (key : value) (d : DataFrame) : bool :=
  bool_decide (key ∈ columns d).

(** [df[key] = v] for a scalar [v]: every column labelled [key] is
    overwritten, and a new last column is added when there is none. *)
Definition setitem (key v : value) (d : DataFrame) : DataFrame :=
  let filled := replicate (nrows d) v in
  if contains key d
  then mk_df (nrows d)
         ((λ col, if bool_decide (col.1 = key) then (key, filled) else col)
            <$> cols d)
  else mk_df (nrows d) (cols d ++ [(key, filled)]).

(** One label under [df.rename(columns=mapper)] *)
Definition rename_label (mapper : gmap string string) (c : value) : value :=
  match c with
  | VStr s => VStr (default s (mapper !! s))
  | _ => c
  end.

(** [df.rename(columns=mapper)] *)
Definition rename (mapper : gmap string string) (d : DataFrame) : DataFrame :=
  mk_df (nrows d) (prod_map (rename_label mapper) id <$> cols d).

(** The columns that [df[keys]] takes: for each key in turn, every
    column with that label, in the order of the frame. *)
Definition select (keys : list value) (d : DataFrame) : DataFrame :=
  mk_df (nrows d) (keys ≫= λ k, filter (λ col, col.1 = k) (cols d)).

(** [df[keys]]; a [KeyError] when a key labels no column. *)
Definition getitem (keys : list value) (d : DataFrame) : option DataFrame :=
  if forallb (λ k, contains k d) keys then Some (select keys d) else None.

End Pandas.

(** ** The object store *)

Inductive exn :=
| FileNotFoundError (msg : string)
| KeyError
| AttributeError
| ValueError
| InvalidRef
| Native (what : string).

Abbreviation loc := nat (only parsing).
Abbreviation heap := (list DataFrame) (only parsing).

Inductive result (A : Type) :=
| Ok (a : A) (h : heap)
| Raise (e : exn).
Arguments Ok {A} a h.
Arguments Raise {A} e.

(** Computations over the store that return or raise. *)
Definition M (A : Type) : Type := heap → result A.

Global Instance M_ret : MRet M := λ A a h, Ok a h.
Global Instance M_bind : MBind M := λ A B f m h,
  match m h with
  | Ok a h' => f a h'
  | Raise e => Raise e
  end.

Definition raise {A} (e : exn) : M A := λ _, Raise e.

Definition of_option {A} (e : exn) (o : option A) : M A :=
  match o with
  | Some a => mret a
  | None => raise e
  end.

Definition deref (l : loc) : M DataFrame := λ h, of_option InvalidRef (h !! l) h.

Definition alloc (d : DataFrame) : M loc := λ h, Ok (length h) (h ++ [d]).

Definition assign (l : loc) (d : DataFrame) : M unit := λ h,
  if decide (l < length h) then Ok () (<[l := d]> h) else Raise InvalidRef.

Fixpoint foldM {A B} (f : A → B → M A) (a : A) (bs : list B) : M A :=
  match bs with
  | [] => mret a
  | b :: bs' => a' ← f a b; foldM f a' bs'
  end.

Fixpoint forM_ {B} (f : B → M unit) (bs : list B) : M unit :=
  match bs with
  | [] => mret ()
  | b :: bs' => f b;; forM_ f bs'
  end.

(** pandas on objects of the store. *)
Definition df_copy (df : loc) : M loc := d ← deref df; alloc d.

Definition df_columns (df : loc) : M (list value) :=
  d ← deref df; mret (Pandas.columns d).

Definition df_set_columns (df : loc) (labels : list value) : M unit :=
  d ← deref df;
  d' ← of_option ValueError (Pandas.set_columns labels d);
  assign df d'.

Definition df_contains (df : loc) (key : value) : M bool :=
  d ← deref df; mret (Pandas.contains key d).

Definition df_setitem (df : loc) (key v : value) : M unit :=
  d ← deref df; assign df (Pandas.setitem key v d).

Definition df_rename (df : loc) (mapper : gmap string string) : M loc :=
  d ← deref df; alloc (Pandas.rename mapper d).

Definition df_getitem (df : loc) (keys : list value) : M loc :=
  d ← deref df;
  d' ← of_option KeyError (Pandas.getitem keys d);
  alloc d'.

(** ** The program *)

Definition EXCEL_FILE : string := "BESS In construction.xlsx".

Definition COLUMNS : list string :=
  [ "Project Name"; "Company"; "MW"; "Location"; "Connection date";
    "Comments"; "Sources"; "PNG Name" ].

Section Builtins.

(** [repr] of a float (the shortest decimal that reads back as the same
    float), a builtin the program only calls. *)
Variable float_repr : spec_float → string.

(** [str(v)] *)
Definition py_str (v : value) : string :=
  match v with
  | VNone => "None"
  | VBool true => "True"
  | VBool false => "False"
  | VInt n => pretty n
  | VFloat x => float_repr x
  | VStr s => s
  | VObj text => text
  end.

Definition safe_str (v : value) : string :=
  match v with
  | VNone => ""
  | VFloat x => if isna x then "" else py_str v
  | _ => py_str v
  end.

(** [{c.lower(): c for c in df.columns}]; [c.lower()] is an
    [AttributeError] on a label that is not a [str]. *)
Fixpoint lower_keys (cs : list value) (d : gmap string string)
  : M (gmap string string) :=
  match cs with
  | [] => mret d
  | VStr s :: cs' => lower_keys cs' (<[PyStr.lower s := s]> d)
  | _ :: _ => raise AttributeError
  end.

(** The body of the loop of lines 109-114. *)
Definition match_expected (df : loc) (actual_lower : gmap string string)
    (rename : gmap string string) (expected : string)
  : M (gmap string string) :=
  let key := PyStr.lower expected in
  match actual_lower !! key with
  | Some c => mret (<[c := expected]> rename)
  | None => df_setitem df (VStr expected) (VStr "");; mret rename
  end.

(** The body of the loop of lines 117-119. *)
Definition fill_missing (df : loc) (c : string) : M unit :=
  present ← df_contains df (VStr c);
  if present : bool then mret () else df_setitem df (VStr c) (VStr "").

Definition normalize_columns (df : loc) : M loc :=
  df ← df_copy df;
  cs ← df_columns df;
  df_set_columns df ((λ c, VStr (PyStr.strip (py_str c))) <$> cs);;
  cs ← df_columns df;
  actual_lower ← lower_keys cs ∅;
  rename ← foldM (match_expected df actual_lower) ∅ COLUMNS;
  df ← df_rename df rename;
  forM_ (fill_missing df) COLUMNS;;
  out ← df_getitem df (VStr <$> COLUMNS);
  df_copy out.

(** *** Loading *)

(** What the program sees of the machine: [os.path.exists], and what
    [pd.read_excel] makes of the file at a path, the frame read or the
    text of the exception pandas raises. *)
Record world := {
  path_exists : string → bool;
  parse_excel : string → string + DataFrame
}.

Definition pd_read_excel (w : world) (path : string) : M loc :=
  match parse_excel w path with
  | inl what => raise (Native what)
  | inr d => alloc d
  end.

Definition SourceNotFound : exn :=
  FileNotFoundError ("Excel file not found next to app.py: " +:+ EXCEL_FILE).

(** The function under the decorator, lines 124-128. *)
Definition load_df_body (w : world) (path : string) : M loc :=
  if negb (path_exists w path) then raise SourceNotFound
  else df ← pd_read_excel w path; normalize_columns df.

(** [@st.cache_data]: return values are memoised by argument.  A hit
    returns a fresh copy of the stored frame without running the
    function; a miss runs it and stores what it returns; an exception
    passes through and nothing is stored. *)
Definition load_df (w : world) (path : string)
    (cache : gmap string DataFrame) (h : heap)
  : result loc * gmap string DataFrame :=
  match cache !! path with
  | Some d => (alloc d h, cache)
  | None =>
      match load_df_body w path h with
      | Ok l h' =>
          match h' !! l with
          | Some d => (Ok l h', <[path := d]> cache)
          | None => (Raise InvalidRef, cache)
          end
      | Raise e => (Raise e, cache)
      end
  end.

(** *** The frame that [normalize_columns] builds

    The same steps on the contents of the frame, without the store;
    [normalize_columns_run] below relates the two. *)

Definition label_text (c : value) : string := PyStr.strip (py_str c).

Definition relabelled (d : DataFrame) : DataFrame :=
  mk_df (nrows d) (prod_map (λ c, VStr (label_text c)) id <$> cols d).

Definition actual_lower_of (labels : list string) : gmap string string :=
  py_dict ((λ s, (PyStr.lower s, s)) <$> labels).

Definition match_step (actual_lower : gmap string string)
    (st : gmap string string * DataFrame) (expected : string)
  : gmap string string * DataFrame :=
  match actual_lower !! PyStr.lower expected with
  | Some c => (<[c := expected]> st.1, st.2)
  | None => (st.1, Pandas.setitem (VStr expected) (VStr "") st.2)
  end.

Definition fill_step (d : DataFrame) (c : string) : DataFrame :=
  if Pandas.contains (VStr c) d then d
  else Pandas.setitem (VStr c) (VStr "") d.

Definition matched (d : DataFrame) : gmap string string * DataFrame :=
  let d1 := relabelled d in
  let actual_lower := actual_lower_of (label_text <$> Pandas.columns d) in
  fold_left (match_step actual_lower) COLUMNS (∅, d1).

Definition filled (d : DataFrame) : DataFrame :=
  let '(rename, d2) := matched d in
  fold_left fill_step COLUMNS (Pandas.rename rename d2).

Definition normalized (d : DataFrame) : DataFrame :=
  Pandas.select (VStr <$> COLUMNS) (filled d).

(** No two raw columns match the same expected name. *)
Definition unambiguous (d : DataFrame) : Prop :=
  ∀ e j j' c c' vs vs',
    e ∈ COLUMNS →
    cols d !! j = Some (c, vs) → cols d !! j' = Some (c', vs') →
    PyStr.lower (label_text c) = PyStr.lower e →
    PyStr.lower (label_text c') = PyStr.lower e →
    j = j'.

End Builtins.

(** ** The spec's reading of hyperlinking

    Follows the spec's words, not the source: the fragment in one pass from
    left to right, every detected URL wrapped as a hyperlink that points to
    itself and all other text copied as it is. *)
Fixpoint hyperlinked_go (skip : nat) (s : string) : string :=
  match s with
  | EmptyString => EmptyString
  | String c s' =>
      match skip with
      | S k => hyperlinked_go k s'
      | O =>
          match URL_RE.match_url s with
          | Some n => wrap_link (PyStr.take n s) +:+ hyperlinked_go (n - 1) s'
          | None => String c (hyperlinked_go 0 s')
          end
      end
  end.

Definition hyperlinked (part : string) : string := hyperlinked_go 0 part.

(** ** Vocabulary of the statements *)

(** Semicolon, newline or whitespace. *)
Definition sep_or_space (c : ascii) : bool :=
  bool_decide (c = ";"%char) || bool_decide (c = "010"%char) || PyStr.isspace c.

(** The schemes of [URL_RE], in any letter case. *)
Definition is_scheme (sch : string) : Prop :=
  PyStr.lower sch = "http" ∨ PyStr.lower sch = "https".



(** ** Sample inputs *)

(** A float printer that is exact on the values the sample tables hold
    (zeros, infinities and nan). *)
Definition float_repr_special (x : spec_float) : string :=
  match x with
  | S754_zero false => "0.0"
  | S754_zero true => "-0.0"
  | S754_infinity false => "inf"
  | S754_infinity true => "-inf"
  | S754_nan => "nan"
  | S754_finite _ _ _ => "?"
  end.

(** The frame a call returned; [None] when it raised. *)
Definition returned (r : result loc) : option DataFrame :=
  match r with
  | Ok l h => h !! l
  | Raise _ => None
  end.

(** [normalize_columns] on a store that holds one frame. *)
Definition run_normalize (float_repr : spec_float → string) (d : DataFrame)
  : option DataFrame :=
  returned (normalize_columns float_repr 0 [d]).

(** Two rows under the headers [project name], [Company], [MW ] and [7];
    an empty cell is read as the float nan. *)
Definition sheet_three_fields : DataFrame :=
  mk_df 2 [ (VStr "project name", [VStr "Sambar Power"; VStr "Legacy"]);
            (VStr "Company", [VStr "Acme"; VFloat S754_nan]);
            (VStr "MW ", [VInt 100; VFloat S754_nan]);
            (VInt 7, [VFloat S754_nan; VStr "note"]) ].

(** One row under the headers [MW] and [MW ] (with a trailing space). *)
Definition sheet_mw_twice : DataFrame :=
  mk_df 1 [ (VStr "MW", [VInt 1]); (VStr "MW ", [VInt 2]) ].

(** One row under the headers [mw] and [MW]. *)
Definition sheet_mw_two_cases : DataFrame :=
  mk_df 1 [ (VStr "mw", [VInt 1]); (VStr "MW", [VInt 2]) ].

(** A machine where the workbook is in place and parses, one where it is
    gone, and one where it is in place but is not a workbook. *)
Definition world_present : world :=
  {| path_exists := λ _, true; parse_excel := λ _, inr sheet_three_fields |}.

Definition world_gone : world :=
  {| path_exists := λ _, false; parse_excel := λ _, inl "No such file or directory" |}.

Definition world_malformed : world :=
  {| path_exists := λ _, true; parse_excel := λ _, inl "File is not a zip file" |}.

(** ** The rest of the script *)

(** *** Image file names *)

(** [s[n:]] *)
Fixpoint str_drop (n : nat) (s : string) : string :=
  match n, s with
  | S k, String _ s' => str_drop k s'
  | _, _ => s
  end.

(** [s.endswith(suffix)] *)
Definition endswith (suffix s : string) : bool :=
  let n := String.length s in
  let m := String.length suffix in
  if decide (m ≤ n) then bool_decide (str_drop (n - m) s = suffix) else false.

Definition png_filename (png_name : string) : option string :=
  let name := PyStr.strip png_name in
  if bool_decide (name = "") then None
  else Some (if endswith ".png" (PyStr.lower name) then name else name +:+ ".png").

(** *** Rows and their styles *)

(** A row of a frame, a [pd.Series]: the labels of the columns and the
    cell of the row under each. *)
Abbreviation Series := (list (value * value)) (only parsing).

(** [df.loc[i]] on a frame whose index is [0 .. nrows-1] and whose columns
    hold one cell per row; a [KeyError] for any other [i]. *)
Definition df_loc (d : DataFrame) (i : nat) : option Series :=
  if decide (i < nrows d)
  then Some ((λ col, (col.1, default VNone (col.2 !! i))) <$> cols d)
  else None.

(** A dict keyed by labels, as the function from a key to its entry; a
    later item replaces an earlier one with an equal key. *)
Definition label_dict {V} (items : list (value * V)) : value → option V :=
  fold_left (λ d kv k, if decide (k = kv.1) then Some kv.2 else d k) items (λ _, None).

(** [enumerate(labels)], as the items [(c, i)] of the comprehension. *)
Definition enumerate_labels (labels : list value) : list (value * nat) :=
  imap (λ i c, (c, i)) labels.

Definition BOLD : string := "font-weight:700;".
Definition GREEN : string := "color:#2ecc71;".
Definition RED : string := "color:#e74c3c;".

(** [styles[i] += css] *)
Definition add_style (css : string) (i : nat) (styles : list string) : list string :=
  alter (λ s, s +:+ css) i styles.

Section Script.

Variable float_repr : spec_float → string.

(** [str] of a [pd.Series] of several cells, a builtin of pandas. *)
Variable series_repr : list (value * value) → string.

(** [os.path.join] on two components, a builtin. *)
Variable os_path_join : string → string → string.

(** [row.get(key, default)]: the cell under the label; the default when no
    column has the label; the sub-series of the cells when several have. *)
Definition series_get (row : Series) (key default : value) : value :=
  match filter (λ kv, kv.1 = key) row with
  | [] => default
  | [kv] => kv.2
  | many => VObj (series_repr many)
  end.

(** Lines 145-164. *)
Definition style_rows (row : Series) : list string :=
  let pname := safe_str float_repr (series_get row (VStr "Project Name") (VStr "")) in
  let f := row_flag pname in
  let styles := replicate (length row) "" in
  let col_to_idx := label_dict (enumerate_labels row.*1) in
  let styles :=
    fold_left (λ styles c,
                 match col_to_idx (VStr c) with
                 | Some i => add_style BOLD i styles
                 | None => styles
                 end) ["Project Name"; "Company"] styles in
  match col_to_idx (VStr "Project Name") with
  | Some i =>
      if bool_decide (f = "g") then add_style GREEN i styles
      else if bool_decide (f = "r") then add_style RED i styles
      else styles
  | None => styles
  end.

(** [display_df.style.apply(style_rows, axis=1)], line 166: the styles of
    the cells, row by row. *)
Definition style_df (display_df : DataFrame) : list (list string) :=
  omap (λ i, style_rows <$> df_loc display_df i) (seq 0 (nrows display_df)).

(** *** The table view *)

Definition TABLE_VIEW_COLS : list string :=
  [ "Project Name"; "Company"; "MW"; "Location"; "Connection date" ].

(** [df[TABLE_VIEW_COLS].copy()], line 190, on the contents of the frame. *)
Definition df_view (d : DataFrame) : option DataFrame :=
  Pandas.getitem (VStr <$> TABLE_VIEW_COLS) d.

(** *** The image of an expanded row, lines 239-248 *)

Inductive ui_call :=
| ui_markdown (body : string)
| ui_image (path : string)
| ui_warning (msg : string)
| ui_caption (msg : string).

Definition image_panel (base_dir : string) (file_exists : string → bool)
    (png_cell : value) : list ui_call :=
  match png_filename (safe_str float_repr png_cell) with
  | Some png =>
      let img_path := os_path_join base_dir png in
      if file_exists img_path
      then [ui_markdown "**Image**"; ui_image img_path]
      else [ui_warning ("PNG not found next to app.py: " +:+ png)]
  | None => [ui_caption "No PNG Name for this row."]
  end.

End Script.

(** *** The rows shown expanded *)

(** Lines 133-134: [open_rows] is created empty when the session has
    none. *)
Definition init_open_rows (state : option (gset nat)) : gset nat :=
  default ∅ state.

(** [set(df.index.tolist())] *)
Definition expand_all (d : DataFrame) : gset nat :=
  list_to_set (seq 0 (nrows d)).

Definition collapse_all : gset nat := ∅.

(** Line 201.  The event of [st.dataframe] is absent or carries the
    selection, a dict with the row positions under ["rows"]; an empty dict
    is falsy. *)
Definition selected_rows (event : option (gmap string (list nat))) : gset nat :=
  match event with
  | Some selection =>
      if bool_decide (selection = ∅) then ∅
      else list_to_set (default [] (selection !! "rows"))
  | None => ∅
  end.

(** One run of the script on [open_rows], lines 133-134, 182-186 and
    201-203: the buttons first, then the selection of the table. *)
Definition run_open_rows (d : DataFrame) (expand_clicked collapse_clicked : bool)
    (event : option (gmap string (list nat))) (state : option (gset nat))
  : gset nat :=
  let open_rows := init_open_rows state in
  let open_rows := if expand_clicked then expand_all d else open_rows in
  let open_rows := if collapse_clicked then collapse_all else open_rows in
  let selected := selected_rows event in
  if bool_decide (selected = ∅) then open_rows else selected.

(** [sorted(open_rows)] *)
Definition sorted (rows : gset nat) : list nat :=
  merge_sort (≤) (elements rows).

(** The loop of line 206 up to [df.loc[i]]: the rows whose details are
    rendered, in order; [None] when a lookup raises. *)
Definition detail_rows (d : DataFrame) (open_rows : gset nat)
  : option (list (nat * list (value * value))) :=
  mapM (λ i, row ← df_loc d i; Some (i, row)) (sorted open_rows).

(** ** Predicates and samples used in the statements *)

(** The string is empty or starts with a character that is not
    whitespace. *)
Definition head_nonspace (s : string) : Prop :=
  match s with
  | EmptyString => True
  | String c _ => PyStr.isspace c = false
  end.

(** Every column of [out] holds the cells of a column of [d], unchanged, or
    is blank, and [out] has the rows of [d]. *)
Definition cells_kept (d out : DataFrame) : Prop :=
  nrows out = nrows d
  ∧ ∀ col, col ∈ cols out →
      (∃ c, (c, col.2) ∈ cols d) ∨ col.2 = replicate (nrows d) (VStr "").

(** Every column holds one cell per row. *)
Definition well_formed (d : DataFrame) : Prop :=
  ∀ col, col ∈ cols d → length col.2 = nrows d.

(** A sample [os.path.join] and a file system that holds one file. *)
Definition posix_join (a b : string) : string := a +:+ "/" +:+ b.

Definition only_file (name path : string) : bool := bool_decide (path = name).

(** * Properties *)

(** ** Strings *)

Module PyStrFacts.
Import PyStr.

Lemma lstrip_spaces s : all_chars isspace s = true → lstrip s = "".
Proof.
  induction s as [|c s IH]; simpl; [done|].
  intros [Hc Hs]%andb_prop. rewrite Hc. auto.
Qed.

Lemma strip_spaces s : all_chars isspace s = true → strip s = "".
Proof. intros H. unfold strip. by rewrite lstrip_spaces. Qed.

Lemma all_chars_impl (p q : ascii → bool) s :
  (∀ c, p c = true → q c = true) →
  all_chars p s = true → all_chars q s = true.
Proof.
  intros Hpq. induction s as [|c s IH]; simpl; [done|].
  intros [Hc Hs]%andb_prop. rewrite (Hpq _ Hc). auto.
Qed.

Lemma all_chars_lstrip p s : all_chars p s = true → all_chars p (lstrip s) = true.
Proof.
  induction s as [|c s IH]; simpl; [done|].
  intros H. destruct (isspace c); [|done].
  apply andb_prop in H as [_ H]. auto.
Qed.

Lemma all_chars_rstrip p s : all_chars p s = true → all_chars p (rstrip s) = true.
Proof.
  induction s as [|c s IH]; simpl; [done|].
  intros [Hc Hs]%andb_prop. specialize (IH Hs).
  destruct (rstrip s) as [|c' r]; simpl in *.
  - destruct (isspace c); simpl; [done|]. by rewrite Hc.
  - by rewrite Hc, IH.
Qed.

Lemma all_chars_strip p s : all_chars p s = true → all_chars p (strip s) = true.
Proof. intros H. by apply all_chars_rstrip, all_chars_lstrip. Qed.

End PyStrFacts.

(** ** The store *)

Module StoreFacts.

Lemma bind_Ok {A B} (m : M A) (f : A → M B) h a h' :
  m h = Ok a h' → (m ≫= f) h = f a h'.
Proof. unfold mbind, M_bind. by intros ->. Qed.

Lemma deref_last (h : heap) d : deref (length h) (h ++ [d]) = Ok d (h ++ [d]).
Proof. unfold deref. by rewrite list_lookup_middle. Qed.

Lemma assign_last (h : heap) d d' :
  assign (length h) d' (h ++ [d]) = Ok () (h ++ [d']).
Proof.
  unfold assign. rewrite length_app. simpl.
  rewrite decide_True by lia.
  rewrite insert_app_r_alt by lia. by rewrite Nat.sub_diag.
Qed.

Lemma df_copy_run (h : heap) l d :
  h !! l = Some d → df_copy l h = Ok (length h) (h ++ [d]).
Proof. intros H. unfold df_copy, deref, mbind, M_bind. by rewrite H. Qed.

Lemma df_columns_last (h : heap) d :
  df_columns (length h) (h ++ [d]) = Ok (Pandas.columns d) (h ++ [d]).
Proof. unfold df_columns. by rewrite (bind_Ok _ _ _ _ _ (deref_last h d)). Qed.

Lemma df_contains_last (h : heap) d key :
  df_contains (length h) key (h ++ [d]) = Ok (Pandas.contains key d) (h ++ [d]).
Proof. unfold df_contains. by rewrite (bind_Ok _ _ _ _ _ (deref_last h d)). Qed.

Lemma df_setitem_last (h : heap) d key v :
  df_setitem (length h) key v (h ++ [d]) = Ok () (h ++ [Pandas.setitem key v d]).
Proof.
  unfold df_setitem. rewrite (bind_Ok _ _ _ _ _ (deref_last h d)).
  apply assign_last.
Qed.

Lemma df_set_columns_last (h : heap) d d' labels :
  Pandas.set_columns labels d = Some d' →
  df_set_columns (length h) labels (h ++ [d]) = Ok () (h ++ [d']).
Proof.
  intros H. unfold df_set_columns.
  rewrite (bind_Ok _ _ _ _ _ (deref_last h d)). rewrite H. simpl.
  unfold mbind, M_bind, mret, M_ret. apply assign_last.
Qed.

Lemma df_rename_last (h : heap) d mapper :
  df_rename (length h) mapper (h ++ [d]) =
    Ok (S (length h)) (h ++ [d; Pandas.rename mapper d]).
Proof.
  unfold df_rename. rewrite (bind_Ok _ _ _ _ _ (deref_last h d)).
  unfold alloc. rewrite length_app, <-app_assoc. simpl. do 2 f_equal. lia.
Qed.

Lemma df_getitem_last (h : heap) d d' keys :
  Pandas.getitem keys d = Some d' →
  df_getitem (length h) keys (h ++ [d]) = Ok (S (length h)) (h ++ [d; d']).
Proof.
  intros H. unfold df_getitem.
  rewrite (bind_Ok _ _ _ _ _ (deref_last h d)). rewrite H. simpl.
  unfold mbind, M_bind, mret, M_ret, alloc.
  rewrite length_app, <-app_assoc. simpl. do 2 f_equal. lia.
Qed.

End StoreFacts.

(** ** Frames *)

Module FrameFacts.
Import Pandas.

Lemma contains_spec key d : contains key d = true ↔ key ∈ columns d.
Proof. unfold contains. apply bool_decide_eq_true. Qed.

Lemma columns_setitem key v d :
  columns (setitem key v d) =
    if contains key d then columns d else columns d ++ [key].
Proof.
  unfold setitem. destruct (contains key d); unfold columns; simpl.
  - rewrite <-list_fmap_compose. apply list_fmap_ext.
    intros _ [c vs] _. simpl. by case_bool_decide; simplify_eq/=.
  - by rewrite fmap_app.
Qed.

Lemma nrows_setitem key v d : nrows (setitem key v d) = nrows d.
Proof. unfold setitem. by destruct (contains key d). Qed.

Lemma contains_setitem_self key v d : contains key (setitem key v d) = true.
Proof.
  apply contains_spec. rewrite columns_setitem.
  destruct (contains key d) eqn:H; [by apply contains_spec|].
  apply elem_of_app. right. by left.
Qed.

Lemma contains_setitem_mono key' key v d :
  contains key' d = true → contains key' (setitem key v d) = true.
Proof.
  rewrite !contains_spec, columns_setitem.
  destruct (contains key d); [done|]. intros ?. apply elem_of_app. by left.
Qed.

(** A column with another label is left alone by [df[key] = v]; a frame
    without the label gets one new last column. *)
Lemma filter_setitem_ne key' key v d :
  key' ≠ key →
  filter (λ col, col.1 = key') (cols (setitem key v d)) =
    filter (λ col, col.1 = key') (cols d).
Proof.
  intros Hne. unfold setitem. destruct (contains key d); simpl.
  - induction (cols d) as [|[c vs] l IH]; [done|].
    rewrite fmap_cons, !filter_cons. simpl.
    case_bool_decide; simplify_eq/=.
    + rewrite decide_False by done. by rewrite decide_False by done.
    + by rewrite IH.
  - rewrite filter_app, filter_cons, decide_False by done.
    by rewrite filter_nil, app_nil_r.
Qed.

Lemma filter_none {A} (P : A → Prop) `{!∀ x, Decision (P x)} (l : list A) :
  (∀ x, x ∈ l → ¬ P x) → filter P l = [].
Proof.
  induction l as [|x l IH]; intros Hnone; [done|].
  rewrite filter_cons_False by (apply Hnone; by left).
  apply IH. intros y Hy. apply Hnone. by right.
Qed.

Lemma filter_label_twice (key k : value) (l : list (value * list value)) :
  filter (λ col, col.1 = key) (filter (λ col, col.1 = k) l) =
    if decide (key = k) then filter (λ col, col.1 = k) l else [].
Proof.
  destruct (decide (key = k)) as [->|Hne].
  - by apply list_filter_filter_l.
  - apply filter_none. intros col [Hk _]%list_elem_of_filter. congruence.
Qed.

Lemma filter_bind_absent (key : value) keys (l : list (value * list value)) :
  key ∉ keys →
  filter (λ col, col.1 = key) (keys ≫= λ k, filter (λ col, col.1 = k) l) = [].
Proof.
  induction keys as [|k keys IH]; [done|].
  intros [Hne Hk]%not_elem_of_cons.
  rewrite bind_cons, filter_app, filter_label_twice, decide_False by done.
  by apply IH.
Qed.

Lemma filter_bind (key : value) keys (l : list (value * list value)) :
  NoDup keys → key ∈ keys →
  filter (λ col, col.1 = key) (keys ≫= λ k, filter (λ col, col.1 = k) l) =
    filter (λ col, col.1 = key) l.
Proof.
  induction 1 as [|k keys Hk Hnd IH].
  { by intros ?%elem_of_nil. }
  intros Hin. rewrite bind_cons, filter_app, filter_label_twice.
  destruct (decide (key = k)) as [->|Hne].
  - by rewrite filter_bind_absent, app_nil_r.
  - apply elem_of_cons in Hin as [?|Hin]; [done|]. by rewrite (IH Hin).
Qed.

Lemma filter_select key keys d :
  NoDup keys → key ∈ keys →
  filter (λ col, col.1 = key) (cols (select keys d)) =
    filter (λ col, col.1 = key) (cols d).
Proof. apply filter_bind. Qed.

Lemma select_columns_elem key keys d :
  key ∈ columns (select keys d) ↔ key ∈ keys ∧ key ∈ columns d.
Proof.
  unfold columns, select. simpl. rewrite !list_elem_of_fmap. split.
  - intros ([c vs] & -> & (k & Hcol & Hk)%list_elem_of_bind).
    apply list_elem_of_filter in Hcol as [Hc Hcol]. simpl in *. subst k.
    split; [done|]. by exists (c, vs).
  - intros (Hk & [c vs] & -> & Hcol). exists (c, vs). split; [done|].
    apply list_elem_of_bind. exists c. split; [|done].
    by apply list_elem_of_filter.
Qed.

(** Selecting again with the same keys changes nothing. *)
Lemma select_idemp keys d :
  NoDup keys → select keys (select keys d) = select keys d.
Proof.
  intros Hnd. unfold select. simpl. f_equal.
  apply Forall_bind_ext, Forall_forall. intros k Hk.
  by apply filter_bind.
Qed.

End FrameFacts.

(** ** Flags *)

Lemma py_dict_fold_lookup (items : list (string * string)) (d : gmap string string) k v :
  fold_left (λ d kv, <[kv.1 := kv.2]> d) items d !! k = Some v →
  (k, v) ∈ items ∨ d !! k = Some v.
Proof.
  revert d. induction items as [|[k' v'] items IH]; intros d; simpl; [by right|].
  intros [Hin|Hd]%IH.
  - left. by right.
  - destruct (decide (k' = k)) as [->|Hne].
    + rewrite lookup_insert_eq in Hd. injection Hd as ->. left. by left.
    + rewrite lookup_insert_ne in Hd by done. by right.
Qed.

Lemma py_dict_lookup_elem (items : list (string * string)) k v :
  py_dict items !! k = Some v → (k, v) ∈ items.
Proof.
  intros [H|H]%py_dict_fold_lookup; [done|]. by rewrite lookup_empty in H.
Qed.

Lemma py_dict_fold_is_Some (items : list (string * string)) (d : gmap string string) k :
  (∃ v, (k, v) ∈ items) ∨ is_Some (d !! k) →
  is_Some (fold_left (λ d kv, <[kv.1 := kv.2]> d) items d !! k).
Proof.
  revert d. induction items as [|[k' v'] items IH]; intros d; simpl.
  - intros [[v Hv]|H]; [by apply elem_of_nil in Hv|done].
  - intros [[v [Heq|Hin]%elem_of_cons]|H]; apply IH.
    + simplify_eq. right. rewrite lookup_insert_eq. eauto.
    + left. eauto.
    + right. destruct (decide (k' = k)) as [->|Hne].
      * rewrite lookup_insert_eq. eauto.
      * by rewrite lookup_insert_ne.
Qed.

Lemma py_dict_lookup_is_Some (items : list (string * string)) k v :
  (k, v) ∈ items → is_Some (py_dict items !! k).
Proof. intros H. apply py_dict_fold_is_Some. left. eauto. Qed.

Lemma FLAGS_values k v :
  FLAGS !! k = Some v → v = "g" ∨ v = "r" ∨ v = "".
Proof.
  intros Hin%py_dict_lookup_elem.
  assert (Forall (λ kv : string * string, kv.2 ∈ ["g"; "r"; ""]) FLAGS_items) as Hall.
  { apply (bool_decide_unpack _). by vm_compute. }
  rewrite Forall_forall in Hall. apply Hall in Hin. simpl in Hin.
  rewrite !elem_of_cons, elem_of_nil in Hin.
  destruct Hin as [?|[?|[?|[]]]]; auto.
Qed.

(** C3. [row_flag] strips the project name, looks it up by exact match in
    the dict, normalises the stored value ([normalize_flag]: strip, then
    lower-case) and answers ["g"] (green) only when that gives the literal
    ["g"], ["r"] (red) only for the literal ["r"], and [""] (none) in every
    other case: absent key, empty value, any other value.  This holds for
    whatever dict stands at [FLAGS].  No value stored in [FLAGS] has
    whitespace around it, so there the normalisation is the lower-casing
    alone.  The three examples of the spec are included, a name that
    differs from a key in letter case only, and on one-entry dicts an
    upper-case value, an unrecognised value and a key in another letter
    case. *)
Theorem row_flag_spec (project_name : string) :
  (∀ flags : gmap string string,
     row_flag_on flags project_name =
       match flags !! PyStr.strip project_name with
       | Some v =>
           if bool_decide (PyStr.lower (PyStr.strip v) = "g") then "g"
           else if bool_decide (PyStr.lower (PyStr.strip v) = "r") then "r"
           else ""
       | None => ""
       end)
  ∧ (∀ k v, FLAGS !! k = Some v → PyStr.strip v = v)
  ∧ row_flag project_name =
      match FLAGS !! PyStr.strip project_name with
      | Some v =>
          if bool_decide (PyStr.lower v = "g") then "g"
          else if bool_decide (PyStr.lower v = "r") then "r"
          else ""
      | None => ""
      end
  ∧ row_flag "  Sambar Power  " = "g"
  ∧ row_flag "Unknown Project" = ""
  ∧ row_flag "Berkswell Energy Storage" = ""
  ∧ FLAGS !! "Berkswell Energy Storage" = Some ""
  ∧ row_flag "sambar power" = ""
  ∧ row_flag_on {[ "Alpha" := "G" ]} " Alpha " = "g"
  ∧ row_flag_on {[ "Alpha" := "R" ]} "Alpha" = "r"
  ∧ row_flag_on {[ "Alpha" := "amber" ]} "Alpha" = ""
  ∧ row_flag_on {[ "Alpha" := "g" ]} "alpha" = "".
Proof.
  split; [|split; [|split; [|by vm_compute]]].
  - intros flags. unfold row_flag_on.
    destruct (flags !! PyStr.strip project_name) as [v|]; [|done].
    unfold normalize_flag. cbn [default from_option id].
    generalize (PyStr.lower (PyStr.strip v)). intros x.
    rewrite <-(bool_decide_ext (x = "g" ∨ x = "r") (x ∈ ["g"; "r"]))
      by (rewrite !elem_of_cons, elem_of_nil; tauto).
    repeat case_bool_decide; subst; try done; tauto.
  - intros k v Hv. by destruct (FLAGS_values _ _ Hv) as [->| [->| ->]].
  - unfold row_flag, row_flag_on.
    destruct (FLAGS !! PyStr.strip project_name) as [v|] eqn:Hv; simpl; [|done].
    by destruct (FLAGS_values _ _ Hv) as [->| [->| ->]].
Qed.

(** ** Column normalisation *)

Section Normalize.
Variable float_repr : spec_float → string.

Import Pandas.

(** *** The run on the store *)

Lemma set_columns_relabel d :
  set_columns ((λ c, VStr (PyStr.strip (py_str float_repr c))) <$> columns d) d =
    Some (relabelled float_repr d).
Proof.
  unfold set_columns, columns, relabelled, label_text.
  rewrite decide_True by (by rewrite !length_fmap). do 2 f_equal.
  generalize (cols d). intros l.
  induction l as [|[c vs] l IH]; [done|].
  rewrite !fmap_cons. simpl. by rewrite IH.
Qed.

Lemma columns_relabelled d :
  columns (relabelled float_repr d) = VStr <$> (label_text float_repr <$> columns d).
Proof.
  unfold columns, relabelled. simpl. rewrite <-!list_fmap_compose.
  apply list_fmap_ext. by intros _ [c vs] _.
Qed.

Lemma lower_keys_run (ls : list string) acc (h : heap) :
  lower_keys (VStr <$> ls) acc h =
    Ok (fold_left (λ d kv, <[kv.1 := kv.2]> d)
          ((λ s, (PyStr.lower s, s)) <$> ls) acc) h.
Proof. revert acc. induction ls as [|s ls IH]; intros acc; simpl; [done|]. apply IH. Qed.

Lemma match_expected_run (h : heap) al rn e d :
  match_expected (length h) al rn e (h ++ [d]) =
    Ok (match_step al (rn, d) e).1 (h ++ [(match_step al (rn, d) e).2]).
Proof.
  unfold match_expected, match_step. simpl.
  destruct (al !! PyStr.lower e) as [c|]; simpl; [done|].
  by rewrite (StoreFacts.bind_Ok _ _ _ _ _ (StoreFacts.df_setitem_last h d _ _)).
Qed.

Lemma foldM_match_run (h : heap) al es rn d :
  foldM (match_expected (length h) al) rn es (h ++ [d]) =
    Ok (fold_left (match_step al) es (rn, d)).1
       (h ++ [(fold_left (match_step al) es (rn, d)).2]).
Proof.
  revert rn d. induction es as [|e es IH]; intros rn d; [done|].
  cbn [foldM fold_left].
  rewrite (StoreFacts.bind_Ok _ _ _ _ _ (match_expected_run h al rn e d)).
  rewrite IH. by destruct (match_step al (rn, d) e).
Qed.

Lemma fill_missing_run (h : heap) c d :
  fill_missing (length h) c (h ++ [d]) = Ok () (h ++ [fill_step d c]).
Proof.
  unfold fill_missing, fill_step.
  rewrite (StoreFacts.bind_Ok _ _ _ _ _ (StoreFacts.df_contains_last h d _)).
  destruct (contains (VStr c) d); [done|]. apply StoreFacts.df_setitem_last.
Qed.

Lemma forM_fill_run (h : heap) cs d :
  forM_ (fill_missing (length h)) cs (h ++ [d]) =
    Ok () (h ++ [fold_left fill_step cs d]).
Proof.
  revert d. induction cs as [|c cs IH]; intros d; [done|].
  cbn [forM_ fold_left].
  rewrite (StoreFacts.bind_Ok _ _ _ _ _ (fill_missing_run h c d)).
  apply IH.
Qed.

Lemma fill_step_mono key d c :
  contains key d = true → contains key (fill_step d c) = true.
Proof.
  intros H. unfold fill_step. destruct (contains (VStr c) d); [done|].
  by apply FrameFacts.contains_setitem_mono.
Qed.

Lemma fill_mono key cs d :
  contains key d = true → contains key (fold_left fill_step cs d) = true.
Proof.
  revert d. induction cs as [|c cs IH]; intros d H; simpl; [done|].
  by apply IH, fill_step_mono.
Qed.

(** After the second loop every expected name labels a column. *)
Lemma fill_contains cs d c :
  c ∈ cs → contains (VStr c) (fold_left fill_step cs d) = true.
Proof.
  revert d. induction cs as [|c' cs IH]; intros d; [by intros ?%elem_of_nil|].
  intros [->|Hin]%elem_of_cons; simpl; [|by apply IH].
  apply fill_mono. unfold fill_step.
  destruct (contains (VStr c') d) eqn:H; [done|].
  apply FrameFacts.contains_setitem_self.
Qed.

Lemma filled_unfold d :
  filled float_repr d =
    fold_left fill_step COLUMNS
      (rename (matched float_repr d).1 (matched float_repr d).2).
Proof. unfold filled. by destruct (matched float_repr d). Qed.

Lemma filled_contains d c :
  c ∈ COLUMNS → contains (VStr c) (filled float_repr d) = true.
Proof. unfold filled. destruct (matched float_repr d). apply fill_contains. Qed.

(** [df[COLUMNS]] raises no [KeyError]. *)
Lemma getitem_filled d :
  getitem (VStr <$> COLUMNS) (filled float_repr d) = Some (normalized float_repr d).
Proof.
  unfold getitem.
  assert (forallb (λ k, contains k (filled float_repr d)) (VStr <$> COLUMNS) = true)
    as ->; [|done].
  apply forallb_forall. intros k [c [<- Hc]]%in_map_iff.
  apply filled_contains. by apply list_elem_of_In.
Qed.

(** [normalize_columns] returns for every frame of the store, never
    raises, leaves the objects that were in the store as they were and
    returns a new object that holds [normalized d]. *)
Lemma normalize_columns_run (h : heap) l d :
  h !! l = Some d →
  normalize_columns float_repr l h =
    Ok (length h + 3)
       (h ++ [(matched float_repr d).2; filled float_repr d;
              normalized float_repr d; normalized float_repr d]).
Proof.
  intros Hl. unfold normalize_columns.
  rewrite (StoreFacts.bind_Ok _ _ _ _ _ (StoreFacts.df_copy_run h l d Hl)).
  rewrite (StoreFacts.bind_Ok _ _ _ _ _ (StoreFacts.df_columns_last h d)).
  rewrite (StoreFacts.bind_Ok _ _ _ _ _
             (StoreFacts.df_set_columns_last h d _ _ (set_columns_relabel d))).
  rewrite (StoreFacts.bind_Ok _ _ _ _ _ (StoreFacts.df_columns_last h _)).
  rewrite columns_relabelled.
  rewrite (StoreFacts.bind_Ok _ _ _ _ _ (lower_keys_run _ _ _)).
  rewrite (StoreFacts.bind_Ok _ _ _ _ _ (foldM_match_run h _ _ _ _)).
  change (fold_left (match_step _) COLUMNS (∅, relabelled float_repr d))
    with (matched float_repr d).
  rewrite (StoreFacts.bind_Ok _ _ _ _ _ (StoreFacts.df_rename_last h _ _)).
  set (md := matched float_repr d).
  change (h ++ [md.2; rename md.1 md.2]) with (h ++ [md.2] ++ [rename md.1 md.2]).
  rewrite app_assoc.
  replace (S (length h)) with (length (h ++ [md.2]))
    by (rewrite length_app; simpl; lia).
  rewrite (StoreFacts.bind_Ok _ _ _ _ _ (forM_fill_run _ _ _)).
  assert (fold_left fill_step COLUMNS (rename md.1 md.2) = filled float_repr d) as ->.
  { unfold filled. fold md. by destruct md. }
  rewrite (StoreFacts.bind_Ok _ _ _ _ _
             (StoreFacts.df_getitem_last _ _ _ _ (getitem_filled d))).
  rewrite length_app. simpl length.
  erewrite StoreFacts.df_copy_run.
  - f_equal; [rewrite !length_app; simpl; lia|]. by rewrite <-!app_assoc.
  - rewrite lookup_app_r by (rewrite length_app; simpl; lia).
    rewrite length_app. simpl.
    by replace (S (length h + 1) - (length h + 1)) with 1 by lia.
Qed.

(** *** The expected names *)

Lemma COLUMNS_NoDup : NoDup COLUMNS.
Proof. apply (bool_decide_unpack _). by vm_compute. Qed.

Lemma KEYS_NoDup : NoDup (VStr <$> COLUMNS).
Proof. apply NoDup_fmap_2; [|apply COLUMNS_NoDup]. by intros ?? [= ->]. Qed.

Lemma COLUMNS_lower_inj e e' :
  e ∈ COLUMNS → e' ∈ COLUMNS → PyStr.lower e = PyStr.lower e' → e = e'.
Proof.
  assert (Forall (λ e, Forall (λ e', PyStr.lower e = PyStr.lower e' → e = e') COLUMNS)
            COLUMNS) as H.
  { apply (bool_decide_unpack _). by vm_compute. }
  rewrite Forall_forall in H. intros He He'. specialize (H e He).
  rewrite Forall_forall in H. by apply H.
Qed.

Lemma COLUMNS_strip e : e ∈ COLUMNS → PyStr.strip e = e.
Proof.
  assert (Forall (λ e, PyStr.strip e = e) COLUMNS) as H.
  { apply (bool_decide_unpack _). by vm_compute. }
  rewrite Forall_forall in H. apply H.
Qed.

(** *** The dictionary [actual_lower] *)

Lemma actual_lower_Some ls k c :
  actual_lower_of ls !! k = Some c → c ∈ ls ∧ PyStr.lower c = k.
Proof.
  intros H%py_dict_lookup_elem. apply list_elem_of_fmap in H as (s & [= -> ->] & Hs).
  done.
Qed.

Lemma actual_lower_is_Some ls c :
  c ∈ ls → is_Some (actual_lower_of ls !! PyStr.lower c).
Proof.
  intros H. apply (py_dict_lookup_is_Some _ _ c).
  apply list_elem_of_fmap. by exists c.
Qed.

(** *** The first loop *)

Lemma match_fold_rename al es st c e :
  (fold_left (match_step al) es st).1 !! c = Some e →
  st.1 !! c = Some e ∨ (e ∈ es ∧ al !! PyStr.lower e = Some c).
Proof.
  revert st. induction es as [|e' es IH]; intros st; simpl; [by left|].
  intros [H|[Hin Hal]]%IH.
  - unfold match_step in H. destruct (al !! PyStr.lower e') as [c'|] eqn:Hal; simpl in H.
    + destruct (decide (c' = c)) as [->|Hne].
      * rewrite lookup_insert_eq in H. simplify_eq. right. split; [by left|done].
      * rewrite lookup_insert_ne in H by done. by left.
    + by left.
  - right. split; [by right|done].
Qed.

Lemma match_fold_all_matched al es st :
  (∀ e, e ∈ es → is_Some (al !! PyStr.lower e)) →
  (fold_left (match_step al) es st).2 = st.2.
Proof.
  revert st. induction es as [|e es IH]; intros st H; simpl; [done|].
  rewrite IH by (intros e' He'; apply H; by right).
  unfold match_step. destruct (H e) as [c ->]; [by left|done].
Qed.

(** *** The second loop *)

Lemma fill_id cs d :
  (∀ c, c ∈ cs → contains (VStr c) d = true) → fold_left fill_step cs d = d.
Proof.
  induction cs as [|c cs IH]; intros H; simpl; [done|].
  unfold fill_step at 2. rewrite (H c) by (by left).
  apply IH. intros c' Hc'. apply H. by right.
Qed.

(** *** The frame returned *)

Lemma normalized_labels d key :
  key ∈ columns (normalized float_repr d) ↔ ∃ e, key = VStr e ∧ e ∈ COLUMNS.
Proof.
  unfold normalized. rewrite FrameFacts.select_columns_elem, list_elem_of_fmap.
  split; [intros [(e & -> & He) _]; eauto|].
  intros (e & -> & He). split; [eauto|].
  by apply FrameFacts.contains_spec, filled_contains.
Qed.

Lemma relabelled_id d :
  (∀ key, key ∈ columns d → ∃ e, key = VStr e ∧ e ∈ COLUMNS) →
  relabelled float_repr d = d.
Proof.
  destruct d as [n l]. unfold relabelled, columns. simpl. intros H. f_equal.
  rewrite <-(list_fmap_id l) at 2. apply list_fmap_ext.
  intros _ [c vs] Hc%list_elem_of_lookup_2. simpl.
  destruct (H c) as (e & -> & He).
  { apply list_elem_of_fmap. by exists (c, vs). }
  unfold label_text. simpl. by rewrite COLUMNS_strip.
Qed.

Lemma rename_id rn d :
  (∀ s e, rn !! s = Some e → e = s) → rename rn d = d.
Proof.
  destruct d as [n l]. unfold rename. simpl. intros H. f_equal.
  rewrite <-(list_fmap_id l) at 2. apply list_fmap_ext.
  intros _ [c vs] _. simpl. f_equal.
  destruct c as [| | | |s|]; try done. simpl.
  destruct (rn !! s) as [e|] eqn:Hs; [|done]. simpl. by rewrite (H _ _ Hs).
Qed.

(** [normalize_columns] leaves a frame it has built as it is. *)
Lemma normalized_fixed d :
  (∀ key, key ∈ columns d ↔ ∃ e, key = VStr e ∧ e ∈ COLUMNS) →
  select (VStr <$> COLUMNS) d = d →
  normalized float_repr d = d.
Proof.
  intros Hlabels Hsel.
  assert (∀ e, e ∈ COLUMNS → e ∈ label_text float_repr <$> columns d) as Hin.
  { intros e He. apply list_elem_of_fmap. exists (VStr e). split.
    - unfold label_text. simpl. by rewrite COLUMNS_strip.
    - apply Hlabels. eauto. }
  assert (∀ s, s ∈ label_text float_repr <$> columns d → s ∈ COLUMNS) as Hsub.
  { intros s (key & -> & (e & -> & He)%Hlabels)%list_elem_of_fmap.
    unfold label_text. simpl. by rewrite COLUMNS_strip. }
  set (al := actual_lower_of (label_text float_repr <$> columns d)).
  assert (∀ e, e ∈ COLUMNS → al !! PyStr.lower e = Some e) as Hal.
  { intros e He. destruct (actual_lower_is_Some _ e (Hin e He)) as [c Hc].
    fold al in Hc. rewrite Hc. f_equal.
    apply actual_lower_Some in Hc as [Hc Hlow].
    apply COLUMNS_lower_inj; auto. }
  unfold normalized, filled, matched. fold al.
  rewrite (relabelled_id d) by (intros key Hk; by apply Hlabels).
  destruct (fold_left (match_step al) COLUMNS (∅, d)) as [rn d2] eqn:Hfold.
  assert (d2 = d) as ->.
  { change d2 with (rn, d2).2. rewrite <-Hfold.
    rewrite match_fold_all_matched; [done|]. intros e He. rewrite Hal; eauto. }
  rewrite rename_id.
  - rewrite fill_id; [done|]. intros c Hc.
    apply FrameFacts.contains_spec, Hlabels. eauto.
  - intros s e Hs. change rn with (rn, d).1 in Hs. rewrite <-Hfold in Hs.
    apply match_fold_rename in Hs as [Hs|[He Hs]];
      [simpl in Hs; by rewrite lookup_empty in Hs|].
    rewrite Hal in Hs by done. by simplify_eq.
Qed.

Lemma normalized_idemp d :
  normalized float_repr (normalized float_repr d) = normalized float_repr d.
Proof.
  apply normalized_fixed.
  - apply normalized_labels.
  - unfold normalized. apply FrameFacts.select_idemp, KEYS_NoDup.
Qed.

(** *** A raw column that alone matches an expected name *)

Lemma filter_fmap_unique {A B} (g : A → B) (P : B → Prop)
    `{!∀ y, Decision (P y)} (l : list A) i x :
  l !! i = Some x → P (g x) →
  (∀ j y, l !! j = Some y → P (g y) → j = i) →
  filter P (g <$> l) = [g x].
Proof.
  revert i. induction l as [|a l IH]; intros i Hi Hx Huniq; [done|].
  rewrite fmap_cons. destruct i as [|i]; simpl in Hi.
  - simplify_eq. rewrite filter_cons_True by done. f_equal.
    apply FrameFacts.filter_none. intros y (a & -> & Ha)%list_elem_of_fmap Hy.
    apply list_elem_of_lookup in Ha as [j Hj].
    by specialize (Huniq (S j) a Hj Hy).
  - rewrite filter_cons_False.
    + apply (IH i); [done..|]. intros j y Hj Hy.
      specialize (Huniq (S j) y Hj Hy). lia.
    + intros Ha. by specialize (Huniq 0 a eq_refl Ha).
Qed.

Lemma match_fold_rename_is_Some al es st c :
  is_Some (st.1 !! c) ∨ (∃ e, e ∈ es ∧ al !! PyStr.lower e = Some c) →
  is_Some ((fold_left (match_step al) es st).1 !! c).
Proof.
  revert st. induction es as [|e' es IH]; intros st; simpl.
  - intros [H|(e & He & _)]; [done|by apply elem_of_nil in He].
  - intros [H|(e & [->|He]%elem_of_cons & Hal)]; apply IH.
    + left. unfold match_step. destruct (al !! PyStr.lower e') as [c'|]; simpl; [|done].
      destruct (decide (c' = c)) as [->|Hne].
      * rewrite lookup_insert_eq. eauto.
      * by rewrite lookup_insert_ne.
    + left. unfold match_step. rewrite Hal. simpl. rewrite lookup_insert_eq. eauto.
    + right. eauto.
Qed.

(** The first loop only adds columns, after the ones of the sheet, each
    labelled with an expected name that matched nothing. *)
Lemma setitem_keeps_prefix key v d prefix extra :
  (∀ col, col ∈ prefix → col.1 ≠ key) →
  cols d = prefix ++ extra →
  ∃ extra', cols (setitem key v d) = prefix ++ extra'
            ∧ ∀ col, col ∈ extra' → col.1 = key ∨ col ∈ extra.
Proof.
  intros Hprefix Hcols. unfold setitem. destruct (contains key d); simpl.
  - rewrite Hcols, fmap_app.
    exists ((λ col, if bool_decide (col.1 = key)
                    then (key, replicate (nrows d) v) else col) <$> extra).
    split.
    + f_equal. rewrite <-(list_fmap_id prefix) at 2. apply list_fmap_ext.
      intros _ col Hcol%list_elem_of_lookup_2. simpl.
      rewrite bool_decide_eq_false_2; [done|]. by apply Hprefix.
    + intros col (col' & -> & Hcol')%list_elem_of_fmap.
      case_bool_decide; [by left|by right].
  - rewrite Hcols, <-app_assoc. eexists. split; [done|].
    intros col [Hcol|Hcol%list_elem_of_singleton]%elem_of_app; [by right|].
    left. by subst.
Qed.

Lemma match_fold_frame al es st prefix extra :
  (∀ s, VStr s ∈ prefix.*1 → is_Some (al !! PyStr.lower s)) →
  cols st.2 = prefix ++ extra →
  ∃ extra', cols (fold_left (match_step al) es st).2 = prefix ++ extra'
    ∧ ∀ col, col ∈ extra' →
        col ∈ extra ∨ ∃ e, col.1 = VStr e ∧ al !! PyStr.lower e = None.
Proof.
  intros Hprefix. revert st extra.
  induction es as [|e es IH]; intros st extra Hcols; simpl.
  { exists extra. split; [done|]. by left. }
  unfold match_step at 2.
  destruct (al !! PyStr.lower e) as [c|] eqn:Hal; simpl.
  - by apply IH.
  - destruct (setitem_keeps_prefix (VStr e) (VStr "") st.2 prefix extra)
      as (extra1 & Hcols1 & Hextra1); [|done|].
    { intros col Hcol Hlabel.
      destruct (Hprefix e) as [c Hc]; [|congruence].
      rewrite <-Hlabel. apply list_elem_of_fmap. by exists col. }
    destruct (IH (st.1, setitem (VStr e) (VStr "") st.2) extra1 Hcols1)
      as (extra2 & Hcols2 & Hextra2).
    exists extra2. split; [done|].
    intros col [Hcol|Hcol]%Hextra2; [|by right].
    apply Hextra1 in Hcol as [Hcol|Hcol]; [|by left].
    right. eauto.
Qed.

Lemma fill_filter key cs d :
  contains key d = true →
  filter (λ col, col.1 = key) (cols (fold_left fill_step cs d)) =
    filter (λ col, col.1 = key) (cols d).
Proof.
  revert d. induction cs as [|c cs IH]; intros d Hkey; simpl; [done|].
  rewrite IH by (by apply fill_step_mono).
  unfold fill_step. destruct (contains (VStr c) d) eqn:Hc; [done|].
  apply FrameFacts.filter_setitem_ne. congruence.
Qed.

Section UniqueMatch.
Variables (d : DataFrame) (e : string) (i : nat) (c : value) (vs : list value).
Hypothesis He : e ∈ COLUMNS.
Hypothesis Hi : cols d !! i = Some (c, vs).
Hypothesis Hmatch : PyStr.lower (label_text float_repr c) = PyStr.lower e.
Hypothesis Honly : ∀ j c' vs',
  cols d !! j = Some (c', vs') →
  PyStr.lower (label_text float_repr c') = PyStr.lower e → j = i.

Let al := actual_lower_of (label_text float_repr <$> columns d).

Lemma unique_label s :
  s ∈ label_text float_repr <$> columns d → PyStr.lower s = PyStr.lower e →
  s = label_text float_repr c.
Proof using Hi Honly.
  intros (key & -> & ([c' vs'] & -> & Hcol)%list_elem_of_fmap)%list_elem_of_fmap Hs.
  apply list_elem_of_lookup in Hcol as [j Hj]. simpl in *.
  pose proof (Honly j c' vs' Hj Hs) as ->. by simplify_eq.
Qed.

Lemma unique_actual_lower : al !! PyStr.lower e = Some (label_text float_repr c).
Proof using Hi Hmatch Honly.
  destruct (actual_lower_is_Some (label_text float_repr <$> columns d)
              (label_text float_repr c)) as [s Hs].
  { apply list_elem_of_fmap. exists c. split; [done|].
    apply list_elem_of_fmap. exists (c, vs). split; [done|].
    by eapply list_elem_of_lookup_2. }
  rewrite Hmatch in Hs. unfold al. rewrite Hs. f_equal.
  apply actual_lower_Some in Hs as [Hs Hlow]. by apply unique_label.
Qed.

Lemma unique_rename s :
  (matched float_repr d).1 !! s = Some e ↔ s = label_text float_repr c.
Proof using He Hi Hmatch Honly.
  unfold matched. fold al. split.
  - intros [H|[_ H]]%match_fold_rename; [simpl in H; by rewrite lookup_empty in H|].
    rewrite unique_actual_lower in H. by simplify_eq.
  - intros ->.
    destruct (match_fold_rename_is_Some al COLUMNS (∅, relabelled float_repr d)
                (label_text float_repr c)) as [e' He'].
    { right. exists e. split; [done|]. apply unique_actual_lower. }
    rewrite He'. f_equal.
    apply match_fold_rename in He' as [H|[Hin H]];
      [simpl in H; by rewrite lookup_empty in H|].
    apply COLUMNS_lower_inj; [done..|].
    apply actual_lower_Some in H as [_ H]. congruence.
Qed.

(** The column is the one column of the result labelled with the
    expected name, and it holds the cells of the raw column. *)
Lemma unique_match_column :
  filter (λ col, col.1 = VStr e) (cols (normalized float_repr d)) = [(VStr e, vs)].
Proof using He Hi Hmatch Honly.
  unfold normalized.
  rewrite FrameFacts.filter_select;
    [|apply KEYS_NoDup|apply list_elem_of_fmap; eauto].
  assert (filter (λ col, col.1 = VStr e)
            (cols (rename (matched float_repr d).1 (matched float_repr d).2)) =
          [(VStr e, vs)]) as Hrenamed.
  { destruct (match_fold_frame al COLUMNS (∅, relabelled float_repr d)
                (cols (relabelled float_repr d)) [])
      as (extra & Hcols & Hextra).
    { intros s Hs.
      change ((cols (relabelled float_repr d)).*1)
        with (columns (relabelled float_repr d)) in Hs.
      rewrite columns_relabelled in Hs.
      apply list_elem_of_fmap in Hs as (s' & [= ->] & Hs').
      by apply actual_lower_is_Some. }
    { simpl. by rewrite app_nil_r. }
    change (fold_left (match_step al) COLUMNS (∅, relabelled float_repr d))
      with (matched float_repr d) in Hcols.
    unfold rename. simpl. rewrite Hcols, fmap_app, filter_app.
    rewrite (FrameFacts.filter_none _ (_ <$> extra)).
    - rewrite app_nil_r. unfold relabelled. simpl. rewrite <-list_fmap_compose.
      rewrite (filter_fmap_unique _ _ (cols d) i (c, vs)); [| done | |].
      + simpl. f_equal. f_equal.
        by rewrite (proj2 (unique_rename _) eq_refl).
      + simpl. by rewrite (proj2 (unique_rename _) eq_refl).
      + intros j [c' vs'] Hj. simpl. intros [= Hlabel].
        apply (Honly j c' vs' Hj).
        destruct ((matched float_repr d).1 !! label_text float_repr c') as [e'|] eqn:Hrn;
          simpl in Hlabel; subst.
        * apply unique_rename in Hrn. by rewrite Hrn.
        * done.
    - intros col (col' & -> & Hcol')%list_elem_of_fmap. simpl.
      apply Hextra in Hcol' as [Hcol'|(e' & Hlabel & Hnone)];
        [by apply elem_of_nil in Hcol'|].
      rewrite Hlabel. simpl. intros [= Hrn].
      destruct ((matched float_repr d).1 !! e') as [e''|] eqn:Hlook; simpl in Hrn; subst.
      + apply unique_rename in Hlook. subst e'.
        rewrite Hmatch, unique_actual_lower in Hnone. done.
      + rewrite unique_actual_lower in Hnone. done. }
  rewrite filled_unfold, fill_filter; [done|].
  apply FrameFacts.contains_spec. unfold columns.
  apply list_elem_of_fmap. exists (VStr e, vs). split; [done|].
  eapply (list_elem_of_filter (λ col, col.1 = VStr e)). rewrite Hrenamed. by left.
Qed.

End UniqueMatch.

(** *** An expected name that no raw column matches *)

Lemma contains_setitem_ne key' key v d :
  key' ≠ key → contains key' (setitem key v d) = contains key' d.
Proof.
  intros Hne. unfold contains at 1. rewrite FrameFacts.columns_setitem.
  destruct (contains key d); [done|].
  apply bool_decide_ext. rewrite elem_of_app, list_elem_of_singleton.
  split; [by intros [?|?]|by left].
Qed.

Lemma filter_setitem_new key v d :
  contains key d = false →
  filter (λ col, col.1 = key) (cols (setitem key v d)) =
    [(key, replicate (nrows d) v)].
Proof.
  intros Hc. unfold setitem. rewrite Hc. simpl.
  rewrite filter_app, (FrameFacts.filter_none _ (cols d)).
  - by rewrite filter_cons_True.
  - intros col Hcol Hkey. apply not_true_iff_false in Hc. apply Hc.
    apply FrameFacts.contains_spec, list_elem_of_fmap. by exists col.
Qed.

Lemma match_fold_nrows al es st :
  nrows (fold_left (match_step al) es st).2 = nrows st.2.
Proof.
  revert st. induction es as [|e es IH]; intros st; simpl; [done|].
  rewrite IH. unfold match_step. destruct (al !! PyStr.lower e); simpl; [done|].
  apply FrameFacts.nrows_setitem.
Qed.

Lemma match_fold_filter_absent al es st e :
  e ∉ es →
  filter (λ col, col.1 = VStr e) (cols (fold_left (match_step al) es st).2) =
    filter (λ col, col.1 = VStr e) (cols st.2).
Proof.
  revert st. induction es as [|e' es IH]; intros st; simpl; [done|].
  intros [Hne He]%not_elem_of_cons. rewrite IH by done.
  unfold match_step. destruct (al !! PyStr.lower e'); simpl; [done|].
  apply FrameFacts.filter_setitem_ne. congruence.
Qed.

Lemma match_fold_filter_unmatched al es st e :
  NoDup es → e ∈ es → al !! PyStr.lower e = None →
  contains (VStr e) st.2 = false →
  filter (λ col, col.1 = VStr e) (cols (fold_left (match_step al) es st).2) =
    [(VStr e, replicate (nrows st.2) (VStr ""))].
Proof.
  intros Hnd. revert st. induction Hnd as [|e' es He' Hnd IH]; intros st.
  { by intros ?%elem_of_nil. }
  intros Hin Hal Hc. cbn [fold_left].
  destruct (decide (e = e')) as [<-|Hne].
  - rewrite match_fold_filter_absent by done.
    unfold match_step. rewrite Hal. simpl. by apply filter_setitem_new.
  - apply elem_of_cons in Hin as [?|Hin]; [done|].
    rewrite IH; [|done..|].
    + unfold match_step. destruct (al !! PyStr.lower e'); simpl; [done|].
      by rewrite FrameFacts.nrows_setitem.
    + unfold match_step. destruct (al !! PyStr.lower e'); simpl; [done|].
      rewrite contains_setitem_ne; [done|congruence].
Qed.

Lemma rename_filter_fixed rn key d :
  (∀ c, rename_label rn c = key ↔ c = key) →
  filter (λ col, col.1 = key) (cols (rename rn d)) =
    filter (λ col, col.1 = key) (cols d).
Proof.
  intros Hfix. unfold rename. simpl.
  induction (cols d) as [|[c vs] l IH]; [done|].
  rewrite fmap_cons, !filter_cons. simpl.
  destruct (decide (c = key)) as [->|Hne].
  - rewrite decide_True by (by apply Hfix).
    rewrite (proj2 (Hfix key) eq_refl). by rewrite IH.
  - rewrite decide_False by (by rewrite Hfix). by rewrite IH.
Qed.

Section Unmatched.
Variables (d : DataFrame) (e : string).
Hypothesis He : e ∈ COLUMNS.
Hypothesis Hnone : ∀ j c' vs',
  cols d !! j = Some (c', vs') →
  PyStr.lower (label_text float_repr c') ≠ PyStr.lower e.

Let al := actual_lower_of (label_text float_repr <$> columns d).

Lemma unmatched_actual_lower : al !! PyStr.lower e = None.
Proof using Hnone.
  destruct (al !! PyStr.lower e) as [s|] eqn:Hs; [|done]. exfalso.
  apply actual_lower_Some in Hs as [Hs Hlow].
  apply list_elem_of_fmap in Hs as (key & -> & Hkey).
  apply list_elem_of_fmap in Hkey as ([c' vs'] & -> & Hcol).
  apply list_elem_of_lookup in Hcol as [j Hj]. by apply (Hnone j c' vs').
Qed.

Lemma unmatched_rename c :
  rename_label (matched float_repr d).1 c = VStr e ↔ c = VStr e.
Proof using He Hnone.
  assert (∀ s e', (matched float_repr d).1 !! s = Some e' →
            e' ∈ COLUMNS ∧ al !! PyStr.lower e' = Some s) as Hrn.
  { intros s e' [H|H]%match_fold_rename; [|done].
    simpl in H. by rewrite lookup_empty in H. }
  destruct c as [| | | |s|]; simpl; try done.
  destruct ((matched float_repr d).1 !! s) as [e'|] eqn:Hs; simpl; [|done].
  apply Hrn in Hs as [He' Hal]. split; intros [= ->]; exfalso.
  - by rewrite unmatched_actual_lower in Hal.
  - pose proof Hal as [_ Hlow]%actual_lower_Some.
    apply COLUMNS_lower_inj in Hlow; [|done..]. subst e'.
    by rewrite unmatched_actual_lower in Hal.
Qed.

(** The result has one column of that name, and it is blank. *)
Lemma unmatched_column :
  filter (λ col, col.1 = VStr e) (cols (normalized float_repr d)) =
    [(VStr e, replicate (nrows d) (VStr ""))].
Proof using He Hnone.
  unfold normalized.
  rewrite FrameFacts.filter_select;
    [|apply KEYS_NoDup|apply list_elem_of_fmap; eauto].
  assert (filter (λ col, col.1 = VStr e) (cols (matched float_repr d).2) =
          [(VStr e, replicate (nrows d) (VStr ""))]) as Hmatched.
  { unfold matched. fold al.
    rewrite match_fold_filter_unmatched;
      [done|apply COLUMNS_NoDup|done|apply unmatched_actual_lower|].
    simpl. apply not_true_iff_false. intros Hc%FrameFacts.contains_spec.
    rewrite columns_relabelled in Hc.
    apply list_elem_of_fmap in Hc as (s & [= <-] & Hs).
    apply list_elem_of_fmap in Hs as (key & Hkey & Hin).
    apply list_elem_of_fmap in Hin as ([c' vs'] & -> & Hcol).
    apply list_elem_of_lookup in Hcol as [j Hj].
    apply (Hnone j c' vs' Hj). simpl in Hkey. by rewrite <-Hkey. }
  rewrite filled_unfold, fill_filter.
  - by rewrite rename_filter_fixed by apply unmatched_rename.
  - apply FrameFacts.contains_spec. unfold columns.
    apply list_elem_of_fmap. exists (VStr e, replicate (nrows d) (VStr "")).
    split; [done|].
    eapply (list_elem_of_filter (λ col, col.1 = VStr e)).
    rewrite rename_filter_fixed by apply unmatched_rename.
    rewrite Hmatched. by left.
Qed.

End Unmatched.

(** *** Sheets on which no two raw columns match one expected name *)

Lemma unambiguous_column d e :
  unambiguous float_repr d → e ∈ COLUMNS →
  ∃ vs, filter (λ col, col.1 = VStr e) (cols (normalized float_repr d)) = [(VStr e, vs)].
Proof.
  intros Hd He.
  destruct (decide (Exists (λ col, PyStr.lower (label_text float_repr col.1) = PyStr.lower e)
                      (cols d))) as [Hex|Hno].
  - apply Exists_exists in Hex as ([c vs] & Hcol & Hlow).
    apply list_elem_of_lookup in Hcol as [i Hi]. exists vs.
    apply (unique_match_column d e i c vs); [done..|].
    intros j c' vs' Hj Hlow'. by apply (Hd e j i c' c vs' vs).
  - eexists. apply unmatched_column; [done|].
    intros j c' vs' Hj Hlow. apply Hno, Exists_exists. exists (c', vs').
    split; [by eapply list_elem_of_lookup_2|done].
Qed.

(** On such a sheet the frame returned has exactly the expected columns,
    in the expected order. *)
Lemma normalized_unambiguous d :
  unambiguous float_repr d → columns (normalized float_repr d) = VStr <$> COLUMNS.
Proof.
  intros Hd.
  assert (∀ es, (∀ e, e ∈ es → e ∈ COLUMNS) →
            ((VStr <$> es) ≫= λ k, filter (λ col, col.1 = k) (cols (filled float_repr d))).*1
            = VStr <$> es) as H; [|by apply H].
  induction es as [|e es IH]; intros Hes; [done|].
  rewrite fmap_cons, bind_cons, fmap_app, IH by (intros e' ?; apply Hes; by right).
  destruct (unambiguous_column d e Hd) as [vs Hvs]; [apply Hes; by left|].
  unfold normalized in Hvs.
  rewrite FrameFacts.filter_select in Hvs;
    [|apply KEYS_NoDup|apply list_elem_of_fmap; exists e; split; [done|apply Hes; by left]].
  by rewrite Hvs.
Qed.

End Normalize.

Lemma normalize_columns_returns float_repr (h : heap) (l : loc) (d : DataFrame) :
  h !! l = Some d →
  ∃ l' h', normalize_columns float_repr l h = Ok l' h'
    ∧ h' !! l' = Some (normalized float_repr d)
    ∧ ∀ k x, h !! k = Some x → h' !! k = Some x.
Proof.
  intros Hl. eexists _, _. split; [by apply normalize_columns_run|]. split.
  - rewrite lookup_app_r by lia. by replace (length h + 3 - length h) with 3 by lia.
  - intros k x Hk. by apply lookup_app_l_Some.
Qed.

(** C1. On a sheet with three of the expected fields and a column of no
    expected name the frame returned is what the claim says: the eight
    expected columns in order, the missing ones blank, the other column
    dropped.  On a sheet whose headers are [MW] and [MW ] it is not: both
    headers are stripped to [MW], [df.rename] keeps both and [df[COLUMNS]]
    takes every column labelled [MW], so the frame returned has nine
    columns, two of them labelled [MW]. *)
Theorem normalize_columns_duplicate_header :
  run_normalize float_repr_special sheet_three_fields =
    Some (mk_df 2
      [ (VStr "Project Name", [VStr "Sambar Power"; VStr "Legacy"]);
        (VStr "Company", [VStr "Acme"; VFloat S754_nan]);
        (VStr "MW", [VInt 100; VFloat S754_nan]);
        (VStr "Location", [VStr ""; VStr ""]);
        (VStr "Connection date", [VStr ""; VStr ""]);
        (VStr "Comments", [VStr ""; VStr ""]);
        (VStr "Sources", [VStr ""; VStr ""]);
        (VStr "PNG Name", [VStr ""; VStr ""]) ])
  ∧ ∃ out,
    run_normalize float_repr_special sheet_mw_twice = Some out
    ∧ Pandas.columns out =
        VStr <$> [ "Project Name"; "Company"; "MW"; "MW"; "Location";
                   "Connection date"; "Comments"; "Sources"; "PNG Name" ]
    ∧ Pandas.columns out ≠ VStr <$> COLUMNS
    ∧ filter (λ col, col.1 = VStr "MW") (cols out) =
        [ (VStr "MW", [VInt 1]); (VStr "MW", [VInt 2]) ].
Proof. split; [by vm_compute|]. eexists. split; [by vm_compute|]. by vm_compute. Qed.

(** C5, as the claim states it, fails on a sheet with the headers [mw]
    and [MW]: the column [mw] equals the expected name [MW] up to letter
    case, and its cells are not in the frame returned; the [MW] column of
    the result holds the cells of the other column. *)
Lemma normalize_columns_drops_a_match :
  cols sheet_mw_two_cases !! 0 = Some (VStr "mw", [VInt 1])
  ∧ PyStr.lower (label_text float_repr_special (VStr "mw")) = PyStr.lower "MW"
  ∧ ∃ out,
      run_normalize float_repr_special sheet_mw_two_cases = Some out
      ∧ filter (λ col, col.1 = VStr "MW") (cols out) = [ (VStr "MW", [VInt 2]) ]
      ∧ ¬ ∃ key, (key, [VInt 1]) ∈ cols out.
Proof.
  split; [done|]. split; [done|]. eexists. split; [by vm_compute|].
  split; [by vm_compute|]. intros [key Hkey]. simpl in Hkey.
  repeat (apply elem_of_cons in Hkey as [Hkey|Hkey]; [by simplify_eq|]).
  by apply elem_of_nil in Hkey.
Qed.

(** C5, amended.  A raw column whose name, once stripped, equals an
    expected name up to letter case, and which is the only raw column that
    does, becomes the column of that name in the frame returned: the
    result has exactly one column with that label, and it holds the cells
    of the raw column. *)
Theorem normalize_columns_unique_match float_repr (h : heap) (l : loc)
    (d : DataFrame) (e : string) (i : nat) (c : value) (vs : list value) :
  h !! l = Some d →
  e ∈ COLUMNS →
  cols d !! i = Some (c, vs) →
  PyStr.lower (PyStr.strip (py_str float_repr c)) = PyStr.lower e →
  (∀ j c' vs', cols d !! j = Some (c', vs') →
     PyStr.lower (PyStr.strip (py_str float_repr c')) = PyStr.lower e → j = i) →
  ∃ l' h' out,
    normalize_columns float_repr l h = Ok l' h'
    ∧ h' !! l' = Some out
    ∧ filter (λ col, col.1 = VStr e) (cols out) = [(VStr e, vs)].
Proof.
  intros Hl He Hi Hmatch Honly.
  destruct (normalize_columns_returns float_repr h l d Hl) as (l' & h' & Hrun & Hout & _).
  exists l', h', (normalized float_repr d). split; [done|]. split; [done|].
  by apply (unique_match_column float_repr d e i c vs).
Qed.

Lemma normalize_columns_unique_match_witness :
  ∃ l' h' out,
    normalize_columns float_repr_special 0 [sheet_three_fields] = Ok l' h'
    ∧ h' !! l' = Some out
    ∧ filter (λ col, col.1 = VStr "MW") (cols out) =
        [(VStr "MW", [VInt 100; VFloat S754_nan])].
Proof.
  apply (normalize_columns_unique_match float_repr_special [sheet_three_fields] 0
           sheet_three_fields "MW" 2 (VStr "MW ")).
  - done.
  - apply (bool_decide_unpack _). by vm_compute.
  - done.
  - by vm_compute.
  - intros [|[|[|[|j]]]] c' vs' Hj Hlow; simplify_eq/=; try done.
    all: by vm_compute in Hlow.
Defined.

(** C8. [normalize_columns] is idempotent and keeps no state between
    runs: it returns for every frame of the store and leaves that frame as
    it was; a second run on the same frame returns a frame with the same
    contents, and so does a run on the frame the first run returned. *)
Theorem normalize_columns_idempotent float_repr (h : heap) (l : loc) (d : DataFrame) :
  h !! l = Some d →
  ∃ l1 h1 out,
    normalize_columns float_repr l h = Ok l1 h1
    ∧ h1 !! l1 = Some out
    ∧ h1 !! l = Some d
    ∧ (∃ l2 h2, normalize_columns float_repr l h1 = Ok l2 h2 ∧ h2 !! l2 = Some out)
    ∧ (∃ l3 h3, normalize_columns float_repr l1 h1 = Ok l3 h3 ∧ h3 !! l3 = Some out).
Proof.
  intros Hl.
  destruct (normalize_columns_returns float_repr h l d Hl) as (l1 & h1 & Hrun1 & Hout1 & Hkeep).
  exists l1, h1, (normalized float_repr d).
  split; [done|]. split; [done|]. split; [by apply Hkeep|]. split.
  - destruct (normalize_columns_returns float_repr h1 l d (Hkeep _ _ Hl))
      as (l2 & h2 & Hrun2 & Hout2 & _). eauto.
  - destruct (normalize_columns_returns float_repr h1 l1 _ Hout1)
      as (l3 & h3 & Hrun3 & Hout3 & _).
    rewrite normalized_idemp in Hout3. eauto.
Qed.

Lemma normalize_columns_idempotent_witness :
  ∃ l1 h1 out,
    normalize_columns float_repr_special 0 [sheet_mw_twice] = Ok l1 h1
    ∧ h1 !! l1 = Some out
    ∧ h1 !! 0 = Some sheet_mw_twice
    ∧ (∃ l2 h2, normalize_columns float_repr_special 0 h1 = Ok l2 h2
                ∧ h2 !! l2 = Some out)
    ∧ (∃ l3 h3, normalize_columns float_repr_special l1 h1 = Ok l3 h3
                ∧ h3 !! l3 = Some out).
Proof.
  apply (normalize_columns_idempotent float_repr_special [sheet_mw_twice] 0 sheet_mw_twice).
  reflexivity.
Defined.

(** ** Loading *)

(** C7, as the claim states it, fails once a load has succeeded: the
    frame is memoised under the path, and a later call for the same path
    returns it although the file no longer exists. *)
Lemma load_df_cached_after_removal :
  let first := load_df float_repr_special world_present EXCEL_FILE ∅ [] in
  returned first.1 = Some (normalized float_repr_special sheet_three_fields)
  ∧ path_exists world_gone EXCEL_FILE = false
  ∧ match first.1 with
    | Ok _ h1 =>
        returned (load_df float_repr_special world_gone EXCEL_FILE first.2 h1).1 =
          Some (normalized float_repr_special sheet_three_fields)
    | Raise _ => False
    end.
Proof. by vm_compute. Qed.

(** C7, amended.  [load_df] fails with [SourceNotFound] exactly when the
    file at the path does not exist and no frame is memoised for the path,
    that is whenever the function under [st.cache_data] runs on a missing
    file.  The existence check is the only validation before parsing: when
    the function runs on a file that exists and pandas cannot read, the
    exception of pandas is raised as it is; when pandas reads it, the
    normalised frame is returned. *)
Theorem load_df_source_not_found float_repr (w : world) (path : string)
    (cache : gmap string DataFrame) (h : heap) :
  ((load_df float_repr w path cache h).1 = Raise SourceNotFound
   ↔ path_exists w path = false ∧ cache !! path = None)
  ∧ (∀ what, cache !! path = None → path_exists w path = true →
       parse_excel w path = inl what →
       (load_df float_repr w path cache h).1 = Raise (Native what))
  ∧ (∀ d, cache !! path = None → path_exists w path = true →
       parse_excel w path = inr d →
       ∃ l h', (load_df float_repr w path cache h).1 = Ok l h'
               ∧ h' !! l = Some (normalized float_repr d)).
Proof.
  assert (∀ d, parse_excel w path = inr d → path_exists w path = true →
            ∃ l h', load_df_body float_repr w path h = Ok l h'
                    ∧ h' !! l = Some (normalized float_repr d)) as Hparsed.
  { intros d Hd Hex. unfold load_df_body, pd_read_excel. rewrite Hex, Hd. simpl.
    destruct (normalize_columns_returns float_repr (h ++ [d]) (length h) d)
      as (l & h' & Hrun & Hout & _); [by rewrite list_lookup_middle|].
    exists l, h'. split; [|done].
    by rewrite (StoreFacts.bind_Ok _ _ _ _ _ (eq_refl : alloc d h = Ok _ _)). }
  unfold load_df. split; [|split].
  - destruct (cache !! path) as [d|] eqn:Hc.
    { split; [done|]. by intros [_ ?]. }
    destruct (path_exists w path) eqn:Hex.
    + split; [|by intros [? _]]. intros Hraise. exfalso.
      destruct (parse_excel w path) as [what|d] eqn:Hp.
      * unfold load_df_body, pd_read_excel in Hraise. by rewrite Hex, Hp in Hraise.
      * destruct (Hparsed d eq_refl eq_refl) as (l & h' & Hrun & Hout).
        by rewrite Hrun, Hout in Hraise.
    + split; [done|]. intros _. unfold load_df_body. by rewrite Hex.
  - intros what -> Hex Hp. unfold load_df_body, pd_read_excel. by rewrite Hex, Hp.
  - intros d -> Hex Hp. destruct (Hparsed d Hp Hex) as (l & h' & Hrun & Hout).
    exists l, h'. by rewrite Hrun, Hout.
Qed.

Lemma load_df_source_not_found_witness :
  (load_df float_repr_special world_gone EXCEL_FILE ∅ []).1 =
    Raise SourceNotFound
  ∧ (load_df float_repr_special world_malformed EXCEL_FILE ∅ []).1 =
      Raise (Native "File is not a zip file")
  ∧ ∃ l h', (load_df float_repr_special world_present EXCEL_FILE ∅ []).1 =
              Ok l h'
            ∧ h' !! l = Some (normalized float_repr_special sheet_three_fields).
Proof.
  split; [|split].
  - by apply (load_df_source_not_found float_repr_special world_gone).
  - by apply (load_df_source_not_found float_repr_special world_malformed).
  - by apply (load_df_source_not_found float_repr_special world_present).
Defined.

(** ** Cell values *)

(** C6. [safe_str] is total on cell values: [None] and a float
    not-a-number give the empty string, every other value gives the text
    [str] prints for it. *)
Theorem safe_str_total (float_repr : spec_float → string) :
  safe_str float_repr VNone = ""
  ∧ safe_str float_repr (VFloat S754_nan) = ""
  ∧ ∀ v : value, v ≠ VNone → v ≠ VFloat S754_nan →
      safe_str float_repr v = py_str float_repr v.
Proof.
  split; [done|]. split; [done|].
  intros v Hnone Hnan. destruct v as [| | |x| |]; try done.
  by destruct x.
Qed.

Lemma safe_str_total_witness :
  safe_str float_repr_special (VFloat (S754_infinity true)) =
    py_str float_repr_special (VFloat (S754_infinity true))
  ∧ safe_str float_repr_special (VInt 100) = "100".
Proof.
  destruct (safe_str_total float_repr_special) as (_ & _ & H).
  split; [by apply H|].
  transitivity (py_str float_repr_special (VInt 100)); [by apply H|].
  by vm_compute.
Defined.

(** ** Sources *)

Module SourcesFacts.
Import PyStr URL_RE Re.

Lemma split_nonempty s : split s ≠ [].
Proof. destruct s as [|c s]; simpl; [done|]. by destruct (is_sep c), (split s). Qed.

(** The pieces of [split] hold the code points of the text that are not
    separators. *)
Lemma split_all_chars p s :
  all_chars p s = true →
  Forall (λ piece, all_chars (λ c, p c && negb (is_sep c)) piece = true) (split s).
Proof.
  induction s as [|c s IH]; simpl.
  - by repeat constructor.
  - intros [Hc Hs]%andb_prop. specialize (IH Hs).
    destruct (is_sep c) eqn:Hsep.
    + by constructor.
    + destruct (split s) as [|piece ps]; simpl.
      * repeat constructor. simpl. by rewrite Hc, Hsep.
      * inversion_clear IH as [|?? Hpiece Hps]. constructor; [|done].
        simpl. by rewrite Hc, Hsep, Hpiece.
Qed.

Lemma render_part_blank log part :
  all_chars isspace part = true → render_part log part = log.
Proof.
  intros H. unfold render_part. by rewrite PyStrFacts.strip_spaces.
Qed.

Lemma render_parts_blank log parts :
  Forall (λ part, all_chars isspace part = true) parts →
  fold_left render_part parts log = log.
Proof.
  induction 1 as [|part parts Hpart _ IH]; simpl; [done|].
  by rewrite render_part_blank.
Qed.

(** What one fragment adds to the page. *)
Lemma render_part_call log part :
  render_part log part =
    log ++ (if bool_decide (strip part = "") then []
            else [st_markdown ("- " +:+ link_part (strip part))]).
Proof.
  unfold render_part. case_bool_decide; [by rewrite app_nil_r|].
  destruct (findall (strip part)) as [|u urls] eqn:Hurls; [|done].
  unfold link_part. by rewrite Hurls.
Qed.

Lemma render_sources_empty text log :
  strip text = "" → render_sources text log = log ++ [st_write_dash].
Proof. intros H. unfold render_sources. by rewrite H. Qed.

(** The fragments are emitted in the order of the text, the blank ones
    dropped. *)
Lemma render_sources_fragments text log :
  strip text ≠ "" →
  render_sources text log =
    log ++ (split (strip text) ≫= λ part,
              if bool_decide (strip part = "") then []
              else [st_markdown ("- " +:+ link_part (strip part))]).
Proof.
  intros H. unfold render_sources. rewrite bool_decide_eq_false_2 by done.
  generalize (split (strip text)). intros parts. revert log.
  induction parts as [|part parts IH]; intros log.
  - by rewrite app_nil_r.
  - cbn [fold_left]. rewrite IH, render_part_call, bind_cons.
    by rewrite <-app_assoc.
Qed.

End SourcesFacts.

(** ** URL detection *)

Module UrlFacts.
Import PyStr URL_RE Re.



Lemma length_append s1 s2 :
  String.length (s1 +:+ s2) = String.length s1 + String.length s2.
Proof. induction s1; simpl; congruence. Qed.



















(** *** Occurrences and [str.replace] *)








(** *** Where the scan finds nothing *)


Lemma url_char_lower c : url_char (lower_char c) = url_char c.
Proof. destruct c as [[] [] [] [] [] [] [] []]; by vm_compute. Qed.

Lemma all_chars_app p x y :
  all_chars p (x +:+ y) = all_chars p x && all_chars p y.
Proof. induction x as [|c x IH]; simpl; [done|]. by rewrite IH, andb_assoc. Qed.

Lemma all_chars_lower_url s :
  all_chars url_char (lower s) = all_chars url_char s.
Proof. induction s as [|c s IH]; simpl; [done|]. by rewrite url_char_lower, IH. Qed.

Lemma scheme_url_chars sch : is_scheme sch → all_chars url_char sch = true.
Proof. intros [H|H]; rewrite <-all_chars_lower_url, H; done. Qed.


Section OneUrl.
Variables sch body : string.
Hypothesis Hsch : is_scheme sch.
Hypothesis Hbody : body ≠ "".
Hypothesis Hchars : all_chars url_char body = true.

Let u : string := sch +:+ "://" +:+ body.











End OneUrl.

(** *** Letter case *)



Lemma lower_app x y : lower (x +:+ y) = lower x +:+ lower y.
Proof. induction x as [|c x IH]; simpl; [done|]. by rewrite IH. Qed.








End UrlFacts.

(** C9. A Sources string that is not empty once stripped but holds only
    semicolons, newlines and whitespace makes [render_sources] emit
    nothing: no fragment and no sentinel (the log is left as it was, so it
    is empty when it was empty). *)
Theorem render_sources_only_separators (text : string) (log : list st_call) :
  PyStr.strip text ≠ "" →
  PyStr.all_chars sep_or_space text = true →
  render_sources text log = log
  ∧ render_sources text [] = [].
Proof.
  intros Hne Hall.
  assert (∀ log', render_sources text log' = log') as H; [|by rewrite !H].
  intros log'. unfold render_sources.
  rewrite bool_decide_eq_false_2 by done.
  apply SourcesFacts.render_parts_blank.
  apply PyStrFacts.all_chars_strip, SourcesFacts.split_all_chars in Hall.
  eapply Forall_impl; [exact Hall|]. simpl. intros piece.
  apply PyStrFacts.all_chars_impl. intros c.
  unfold sep_or_space, Re.is_sep.
  destruct (bool_decide (c = ";"%char)), (bool_decide (c = "010"%char)),
    (PyStr.isspace c); naive_solver.
Qed.

Lemma render_sources_only_separators_witness :
  render_sources " ;; ;
 ; " [st_markdown "- earlier"] = [st_markdown "- earlier"]
  ∧ render_sources " ;; ;
 ; " [] = [].
Proof.
  apply render_sources_only_separators; by vm_compute.
Defined.




(** C2. A fragment in which the same URL literal occurs twice: the loop
    calls [str.replace] once per entry of [urls], so the second pass
    rewrites the URL again inside the links the first pass made.  The
    result is neither the fragment with each occurrence wrapped once nor
    the spec's hyperlinked text. *)
Theorem link_part_repeated_url :
  URL_RE.findall "https://a.b https://a.b" = ["https://a.b"; "https://a.b"]
  ∧ link_part "https://a.b https://a.b" =
      "[[https://a.b](https://a.b)]([https://a.b](https://a.b)) [[https://a.b](https://a.b)]([https://a.b](https://a.b))"
  ∧ hyperlinked "https://a.b https://a.b" =
      "[https://a.b](https://a.b) [https://a.b](https://a.b)"
  ∧ link_part "https://a.b https://a.b" ≠ hyperlinked "https://a.b https://a.b".
Proof. by vm_compute. Qed.

(** C4. [render_sources] on the example of the spec and on the empty
    field does what the claim says; on a text with a fragment that repeats
    a URL the fragment is emitted with the URL wrapped twice over, where
    the claim has each detected URL wrapped as a link to itself. *)
Theorem render_sources_repeated_url :
  render_sources "" [] = [st_write_dash]
  ∧ render_sources "see https://example.com/a, https://example.com/b; also note" [] =
      [ st_markdown "- see [https://example.com/a](https://example.com/a), [https://example.com/b](https://example.com/b)";
        st_markdown "- also note" ]
  ∧ render_sources "docs https://a.b, mirror https://a.b; also note" [] =
      [ st_markdown "- docs [[https://a.b](https://a.b)]([https://a.b](https://a.b)), mirror [[https://a.b](https://a.b)]([https://a.b](https://a.b))";
        st_markdown "- also note" ]
  ∧ render_sources "docs https://a.b, mirror https://a.b; also note" [] ≠
      [ st_markdown ("- " +:+ hyperlinked "docs https://a.b, mirror https://a.b");
        st_markdown "- also note" ].
Proof. by vm_compute. Qed.

(** * The rest of the code *)

(** ** Stripping *)

Module StripFacts.
Import PyStr.

Lemma lstrip_head s : head_nonspace (lstrip s).
Proof.
  induction s as [|c s IH]; simpl; [done|].
  destruct (isspace c) eqn:Hc; [done|]. simpl. done.
Qed.

Lemma lstrip_id s : head_nonspace s → lstrip s = s.
Proof. destruct s as [|c s]; simpl; [done|]. by intros ->. Qed.

Lemma rstrip_head s : head_nonspace s → head_nonspace (rstrip s).
Proof.
  destruct s as [|c s]; simpl; [done|]. intros Hc.
  destruct (rstrip s); simpl; [by rewrite Hc|done].
Qed.

Lemma rstrip_head_nonempty s : head_nonspace s → rstrip s = "" → s = "".
Proof.
  destruct s as [|c s]; simpl; [done|]. intros Hc.
  destruct (rstrip s); [by rewrite Hc|done].
Qed.

Lemma rstrip_idemp s : rstrip (rstrip s) = rstrip s.
Proof.
  induction s as [|c s IH]; simpl; [done|].
  destruct (rstrip s) as [|a r] eqn:Hr.
  - destruct (isspace c) eqn:Hc; simpl; [done|]. by rewrite Hc.
  - change (rstrip (String c (String a r)))
      with (match rstrip (String a r) with
            | EmptyString => if isspace c then EmptyString else String c EmptyString
            | r' => String c r'
            end).
    by rewrite IH.
Qed.

Lemma strip_head s : head_nonspace (strip s).
Proof. apply rstrip_head, lstrip_head. Qed.

Lemma strip_idemp s : strip (strip s) = strip s.
Proof.
  unfold strip at 1. rewrite (lstrip_id (strip s)) by apply strip_head.
  unfold strip. apply rstrip_idemp.
Qed.

Lemma lstrip_blank s : lstrip s = "" → all_chars isspace s = true.
Proof.
  induction s as [|c s IH]; simpl; [done|].
  destruct (isspace c); [done|]. done.
Qed.

(** A string strips to nothing exactly when it is all whitespace. *)
Lemma strip_blank s : strip s = "" ↔ all_chars isspace s = true.
Proof.
  split; [|apply PyStrFacts.strip_spaces].
  intros H. apply lstrip_blank.
  apply rstrip_head_nonempty; [apply lstrip_head|done].
Qed.

Lemma rstrip_app_keep x y : rstrip y = y → y ≠ "" → rstrip (x +:+ y) = x +:+ y.
Proof.
  intros Hy Hne. induction x as [|c x IH]; simpl; [done|].
  rewrite IH. destruct (x +:+ y) eqn:Hxy; [|done].
  destruct x; simpl in Hxy; [done|discriminate].
Qed.

Lemma lstrip_pad pad s : all_chars isspace pad = true → lstrip (pad +:+ s) = lstrip s.
Proof.
  induction pad as [|c pad IH]; simpl; [done|].
  intros [-> ?]%andb_prop. auto.
Qed.

Lemma rstrip_pad s pad : all_chars isspace pad = true → rstrip (s +:+ pad) = rstrip s.
Proof.
  intros Hpad. induction s as [|c s IH]; simpl.
  - apply PyStrFacts.lstrip_spaces in Hpad as Hl.
    assert (strip pad = "") as Hs by (by apply PyStrFacts.strip_spaces).
    unfold strip in Hs. rewrite Hl in Hs.
    clear -Hpad. induction pad as [|c pad IH]; simpl; [done|].
    simpl in Hpad. apply andb_prop in Hpad as [Hc Hpad]. by rewrite IH, Hc.
  - by rewrite IH.
Qed.

Lemma lstrip_app_pad s pad :
  all_chars isspace pad = true → rstrip (lstrip (s +:+ pad)) = rstrip (lstrip s).
Proof.
  intros Hpad. induction s as [|c s IH]; simpl.
  - rewrite PyStrFacts.lstrip_spaces by done. done.
  - destruct (isspace c); [done|].
    change (String c (s +:+ pad)) with (String c s +:+ pad).
    by apply rstrip_pad.
Qed.

(** Whitespace around a string does not change what it strips to. *)
Lemma strip_pad pad1 s pad2 :
  all_chars isspace pad1 = true → all_chars isspace pad2 = true →
  strip (pad1 +:+ s +:+ pad2) = strip s.
Proof.
  intros H1 H2. unfold strip. rewrite lstrip_pad by done. by apply lstrip_app_pad.
Qed.

Lemma isspace_lower c : isspace (lower_char c) = isspace c.
Proof. destruct c as [[] [] [] [] [] [] [] []]; by vm_compute. Qed.

Lemma lstrip_lower s : lstrip (lower s) = lower (lstrip s).
Proof.
  induction s as [|c s IH]; simpl; [done|].
  rewrite isspace_lower. by destruct (isspace c).
Qed.

Lemma rstrip_lower s : rstrip (lower s) = lower (rstrip s).
Proof.
  induction s as [|c s IH]; simpl; [done|].
  rewrite IH, isspace_lower. destruct (rstrip s); simpl; [|done].
  by destruct (isspace c).
Qed.

Lemma strip_lower s : strip (lower s) = lower (strip s).
Proof. unfold strip. by rewrite lstrip_lower, rstrip_lower. Qed.

End StripFacts.

(** ** Image file names *)

Module PngFacts.
Import PyStr StripFacts.

Lemma str_drop_app x y : str_drop (String.length x) (x +:+ y) = y.
Proof. induction x; simpl; done. Qed.

Lemma endswith_app suffix x : endswith suffix (x +:+ suffix) = true.
Proof.
  unfold endswith. rewrite UrlFacts.length_append.
  rewrite decide_True by lia.
  replace (String.length x + String.length suffix - String.length suffix)
    with (String.length x) by lia.
  rewrite str_drop_app. by apply bool_decide_eq_true_2.
Qed.

Lemma strip_with_png name :
  strip name = name → name ≠ "" → strip (name +:+ ".png") = name +:+ ".png".
Proof.
  intros Hname Hne. unfold strip.
  assert (head_nonspace name) as Hhead by (rewrite <-Hname; apply strip_head).
  rewrite lstrip_id.
  - by apply rstrip_app_keep.
  - destruct name; [done|]. done.
Qed.

Lemma png_filename_nonempty png_name y : png_filename png_name = Some y → y ≠ "".
Proof.
  unfold png_filename. case_bool_decide as Hne; [done|].
  destruct (endswith _ _); intros [= <-]; [done|].
  by destruct (strip png_name).
Qed.

Lemma png_filename_ends png_name y :
  png_filename png_name = Some y →
  endswith ".png" (lower y) = true ∧ strip y = y.
Proof.
  unfold png_filename. case_bool_decide as Hne; [done|].
  destruct (endswith ".png" (lower (strip png_name))) eqn:Hend; intros [= <-].
  - split; [done|apply strip_idemp].
  - split.
    + rewrite UrlFacts.lower_app. apply endswith_app.
    + apply strip_with_png; [apply strip_idemp|done].
Qed.

End PngFacts.

(** X1. [png_filename] gives no file name exactly when the field is blank
    (empty or all whitespace). *)
Theorem png_filename_none (png_name : string) :
  png_filename png_name = None ↔ PyStr.all_chars PyStr.isspace png_name = true.
Proof.
  rewrite <-StripFacts.strip_blank. unfold png_filename.
  case_bool_decide; split; done.
Qed.

(** X2. A file name that [png_filename] returns ends in [.png] in some
    letter case, has no whitespace around it, and is the stripped field
    itself or the stripped field followed by [.png]. *)
Theorem png_filename_shape (png_name y : string) :
  png_filename png_name = Some y →
  endswith ".png" (PyStr.lower y) = true
  ∧ PyStr.strip y = y
  ∧ (y = PyStr.strip png_name ∨ y = PyStr.strip png_name +:+ ".png").
Proof.
  intros H. destruct (PngFacts.png_filename_ends _ _ H) as [Hend Hstrip].
  split; [done|]. split; [done|].
  unfold png_filename in H. case_bool_decide; [done|].
  destruct (endswith _ _); simplify_eq; auto.
Qed.

Lemma png_filename_shape_witness :
  endswith ".png" (PyStr.lower "foo.PNG") = true
  ∧ PyStr.strip "foo.PNG" = "foo.PNG"
  ∧ ("foo.PNG" = PyStr.strip " foo.PNG " ∨ "foo.PNG" = PyStr.strip " foo.PNG " +:+ ".png").
Proof. apply (png_filename_shape " foo.PNG " "foo.PNG"). reflexivity. Defined.

(** X3. [png_filename] is idempotent: a file name it returns is returned
    unchanged when given back, so the extension is never added twice. *)
Theorem png_filename_idempotent (png_name y : string) :
  png_filename png_name = Some y → png_filename y = Some y.
Proof.
  intros H. pose proof (PngFacts.png_filename_ends _ _ H) as [Hend Hstrip].
  pose proof (PngFacts.png_filename_nonempty _ _ H) as Hne.
  unfold png_filename. rewrite Hstrip, Hend.
  by rewrite bool_decide_eq_false_2.
Qed.

Lemma png_filename_idempotent_witness : png_filename "foo.png" = Some "foo.png".
Proof. apply (png_filename_idempotent "  foo "). reflexivity. Defined.

(** ** Flags, again *)

(** X4. [normalize_flag] answers ["g"], ["r"] or [""] and nothing else, and
    applying it to its own answer changes nothing. *)
Theorem normalize_flag_range (x : string) :
  normalize_flag x ∈ ["g"; "r"; ""]
  ∧ normalize_flag (normalize_flag x) = normalize_flag x.
Proof.
  assert (normalize_flag x ∈ ["g"; "r"; ""]) as H.
  { unfold normalize_flag. case_bool_decide as H.
    - apply elem_of_cons in H as [->|H]; [by left|].
      apply elem_of_cons in H as [->|H]; [right; by left|].
      by apply elem_of_nil in H.
    - right. right. by left. }
  split; [done|].
  rewrite !elem_of_cons, elem_of_nil in H.
  by destruct H as [->|[->|[->|[]]]].
Qed.

(** X5. [normalize_flag] ignores letter case and the whitespace around the
    value. *)
Theorem normalize_flag_insensitive (pad1 x pad2 y : string) :
  PyStr.all_chars PyStr.isspace pad1 = true →
  PyStr.all_chars PyStr.isspace pad2 = true →
  PyStr.lower x = PyStr.lower y →
  normalize_flag (pad1 +:+ x +:+ pad2) = normalize_flag y.
Proof.
  intros H1 H2 Hxy. unfold normalize_flag.
  rewrite StripFacts.strip_pad by done.
  by rewrite <-!StripFacts.strip_lower, Hxy.
Qed.

Lemma normalize_flag_insensitive_witness :
  normalize_flag ("  " +:+ "G" +:+ " ") = normalize_flag "g".
Proof. by apply normalize_flag_insensitive. Defined.

(** X6. Whitespace around a project name never changes its flag. *)
Theorem row_flag_padding (pad1 project_name pad2 : string) :
  PyStr.all_chars PyStr.isspace pad1 = true →
  PyStr.all_chars PyStr.isspace pad2 = true →
  row_flag (pad1 +:+ project_name +:+ pad2) = row_flag project_name.
Proof. intros H1 H2. unfold row_flag, row_flag_on. by rewrite StripFacts.strip_pad. Qed.

Lemma row_flag_padding_witness :
  row_flag (" " +:+ "Whitegate" +:+ "  ") = row_flag "Whitegate".
Proof. by apply row_flag_padding. Defined.

(** ** URLs, again *)

Module MatchFacts.
Import PyStr URL_RE.

Lemma eat_inv p s r : eat p s = Some r → ∃ c, s = String c r ∧ p c = true.
Proof.
  destruct s as [|c s]; simpl; [done|].
  destruct (p c) eqn:Hc; [|done]. intros [= ->]. eauto.
Qed.

Lemma ci_inv l c : ci l c = true → lower_char c = lower_char l.
Proof. unfold ci. apply bool_decide_eq_true_1. Qed.

Lemma ci_colon c : ci ":" c = true → c = ":"%char.
Proof. destruct c as [[] [] [] [] [] [] [] []]; by vm_compute. Qed.

Lemma ci_slash c : ci "/" c = true → c = "/"%char.
Proof. destruct c as [[] [] [] [] [] [] [] []]; by vm_compute. Qed.

Lemma run_take s : all_chars url_char (take (run_len s) s) = true.
Proof.
  induction s as [|c s IH]; simpl; [done|].
  destruct (url_char c) eqn:Hc; simpl; [|done]. by rewrite Hc.
Qed.

Lemma match_tail_inv s n :
  match_tail s = Some n →
  ∃ body, body ≠ "" ∧ all_chars url_char body = true
          ∧ take n s = "://" +:+ body.
Proof.
  unfold match_tail. intros H.
  destruct (eat (ci ":") s) as [s1|] eqn:H1; simpl in H; [|done].
  destruct (eat (ci "/") s1) as [s2|] eqn:H2; simpl in H; [|done].
  destruct (eat (ci "/") s2) as [s3|] eqn:H3; simpl in H; [|done].
  apply eat_inv in H1 as (c1 & -> & ->%ci_colon).
  apply eat_inv in H2 as (c2 & -> & ->%ci_slash).
  apply eat_inv in H3 as (c3 & -> & ->%ci_slash).
  destruct (run_len s3) as [|k] eqn:Hrun; [done|]. injection H as <-.
  exists (take (S k) s3). split; [|split].
  - destruct s3; [done|]. done.
  - rewrite <-Hrun. apply run_take.
  - done.
Qed.

(** What the pattern matches: a scheme in some letter case, [://], and a
    run of code points, not empty, that holds no whitespace and no
    comma. *)
Lemma match_url_inv s n :
  match_url s = Some n →
  ∃ sch body, is_scheme sch ∧ body ≠ "" ∧ all_chars url_char body = true
              ∧ take n s = sch +:+ "://" +:+ body.
Proof.
  unfold match_url. intros H.
  destruct (eat (ci "h") s) as [s1|] eqn:H1; simpl in H; [|done].
  destruct (eat (ci "t") s1) as [s2|] eqn:H2; simpl in H; [|done].
  destruct (eat (ci "t") s2) as [s3|] eqn:H3; simpl in H; [|done].
  destruct (eat (ci "p") s3) as [s4|] eqn:H4; simpl in H; [|done].
  apply eat_inv in H1 as (a & -> & Ha%ci_inv).
  apply eat_inv in H2 as (b & -> & Hb%ci_inv).
  apply eat_inv in H3 as (c & -> & Hc%ci_inv).
  apply eat_inv in H4 as (d & -> & Hd%ci_inv).
  destruct (eat (ci "s") s4 ≫= match_tail) as [m|] eqn:H5.
  - injection H as <-.
    destruct (eat (ci "s") s4) as [s5|] eqn:H6; simpl in H5; [|done].
    apply eat_inv in H6 as (e & -> & He%ci_inv).
    apply match_tail_inv in H5 as (body & Hne & Hchars & Htake).
    exists (String a (String b (String c (String d (String e ""))))), body.
    split; [|split; [done|split; [done|]]].
    + right. simpl. by rewrite Ha, Hb, Hc, Hd, He.
    + simpl. by rewrite Htake.
  - destruct (match_tail s4) as [m|] eqn:H6; simpl in H; [|done].
    injection H as <-.
    apply match_tail_inv in H6 as (body & Hne & Hchars & Htake).
    exists (String a (String b (String c (String d "")))), body.
    split; [|split; [done|split; [done|]]].
    + left. simpl. by rewrite Ha, Hb, Hc, Hd.
    + simpl. by rewrite Htake.
Qed.

Lemma scan_inv k s u :
  u ∈ scan k s →
  ∃ sch body, is_scheme sch ∧ body ≠ "" ∧ all_chars url_char body = true
              ∧ u = sch +:+ "://" +:+ body.
Proof.
  revert k. induction s as [|c s IH]; intros k; simpl.
  { by intros ?%elem_of_nil. }
  destruct k as [|k]; [|apply IH].
  destruct (match_url (String c s)) as [n|] eqn:Hn; [|apply IH].
  intros [->|Hu]%elem_of_cons; [|by eapply IH].
  apply match_url_inv in Hn as (sch & body & ? & ? & ? & ?). eauto 10.
Qed.

End MatchFacts.

(** X7. Every URL that [URL_RE.findall] returns is [http] or [https] in
    some letter case, then [://], then at least one more code point, and
    holds no whitespace and no comma. *)
Theorem findall_urls_shape (part u : string) :
  u ∈ URL_RE.findall part →
  PyStr.all_chars URL_RE.url_char u = true
  ∧ ∃ sch body, is_scheme sch ∧ body ≠ "" ∧ u = sch +:+ "://" +:+ body.
Proof.
  intros (sch & body & Hsch & Hne & Hchars & ->)%MatchFacts.scan_inv.
  split; [|eauto].
  rewrite !UrlFacts.all_chars_app, UrlFacts.scheme_url_chars, Hchars by done.
  done.
Qed.

Lemma findall_urls_shape_witness :
  PyStr.all_chars URL_RE.url_char "https://example.com/b" = true
  ∧ ∃ sch body, is_scheme sch ∧ body ≠ ""
                ∧ "https://example.com/b" = sch +:+ "://" +:+ body.
Proof.
  apply (findall_urls_shape "see https://example.com/a, https://example.com/b").
  apply (bool_decide_unpack _). by vm_compute.
Defined.

(** X8. [render_sources] adds to the page either the one dash, when the
    field is blank, or bullets only: one markdown call per fragment that is
    not blank, each starting with ["- "]. *)
Theorem render_sources_shape (text : string) (log : list st_call) :
  (PyStr.all_chars PyStr.isspace text = true →
   render_sources text log = log ++ [st_write_dash])
  ∧ (PyStr.all_chars PyStr.isspace text = false →
     ∃ bodies,
       render_sources text log = log ++ ((λ b, st_markdown ("- " +:+ b)) <$> bodies)
       ∧ length bodies =
           length (filter (λ part, PyStr.strip part ≠ "")
                     (Re.split (PyStr.strip text)))).
Proof.
  split.
  - intros H%StripFacts.strip_blank. by apply SourcesFacts.render_sources_empty.
  - intros H.
    assert (PyStr.strip text ≠ "") as Hne.
    { intros Hs%StripFacts.strip_blank. congruence. }
    rewrite SourcesFacts.render_sources_fragments by done.
    generalize (Re.split (PyStr.strip text)). intros parts.
    exists (omap (λ part, if bool_decide (PyStr.strip part = "") then None
                          else Some (link_part (PyStr.strip part))) parts).
    split.
    + f_equal. induction parts as [|part parts IH]; [done|].
      rewrite bind_cons, IH. simpl. by case_bool_decide.
    + induction parts as [|part parts IH]; [done|].
      rewrite filter_cons. simpl. case_bool_decide.
      * rewrite decide_False by (by intros ?). exact IH.
      * rewrite decide_True by done. simpl. f_equal. exact IH.
Qed.

(** ** Column normalisation, again *)

Module KeptFacts.
Import Pandas.

Lemma kept_relabelled fr d : cells_kept d (relabelled fr d).
Proof.
  split; [done|]. intros col ([c vs] & -> & Hcol)%list_elem_of_fmap.
  left. by exists c.
Qed.

Lemma kept_setitem d out key :
  cells_kept d out → cells_kept d (setitem key (VStr "") out).
Proof.
  intros [Hrows Hcols]. split; [by rewrite FrameFacts.nrows_setitem|].
  unfold setitem. destruct (contains key out); simpl.
  - intros col (col' & -> & Hcol')%list_elem_of_fmap.
    case_bool_decide; [right; by rewrite Hrows|by apply Hcols].
  - intros col [Hcol|Hcol%list_elem_of_singleton]%elem_of_app; [by apply Hcols|].
    subst col. right. by rewrite Hrows.
Qed.

Lemma kept_match_fold d al es st :
  cells_kept d st.2 → cells_kept d (fold_left (match_step al) es st).2.
Proof.
  revert st. induction es as [|e es IH]; intros st H; simpl; [done|].
  apply IH. unfold match_step. destruct (al !! PyStr.lower e); simpl; [done|].
  by apply kept_setitem.
Qed.

Lemma kept_rename d rn out : cells_kept d out → cells_kept d (rename rn out).
Proof.
  intros [Hrows Hcols]. split; [done|].
  intros col ([c vs] & -> & Hcol)%list_elem_of_fmap. by apply (Hcols (c, vs)).
Qed.

Lemma kept_fill d cs out :
  cells_kept d out → cells_kept d (fold_left fill_step cs out).
Proof.
  revert out. induction cs as [|c cs IH]; intros out H; simpl; [done|].
  apply IH. unfold fill_step. destruct (contains (VStr c) out); [done|].
  by apply kept_setitem.
Qed.

Lemma kept_select d keys out : cells_kept d out → cells_kept d (select keys out).
Proof.
  intros [Hrows Hcols]. split; [done|].
  intros col (k & Hcol & _)%list_elem_of_bind.
  apply list_elem_of_filter in Hcol as [_ Hcol]. by apply Hcols.
Qed.

Lemma kept_normalized fr d : cells_kept d (normalized fr d).
Proof.
  unfold normalized. apply kept_select. rewrite filled_unfold.
  apply kept_fill, kept_rename. unfold matched.
  apply kept_match_fold, kept_relabelled.
Qed.

End KeptFacts.

(** X9. Whatever the headers of the sheet, the labels of the frame that
    [normalize_columns] returns are the eight expected names, each of them
    present and no other label. *)
Theorem normalize_columns_labels float_repr (h : heap) (l : loc) (d : DataFrame) :
  h !! l = Some d →
  ∃ l' h' out,
    normalize_columns float_repr l h = Ok l' h'
    ∧ h' !! l' = Some out
    ∧ ∀ key, key ∈ Pandas.columns out ↔ ∃ e, key = VStr e ∧ e ∈ COLUMNS.
Proof.
  intros Hl.
  destruct (normalize_columns_returns float_repr h l d Hl) as (l' & h' & Hrun & Hout & _).
  exists l', h', (normalized float_repr d). split; [done|]. split; [done|].
  apply normalized_labels.
Qed.

Lemma normalize_columns_labels_witness :
  ∃ l' h' out,
    normalize_columns float_repr_special 0 [sheet_mw_twice] = Ok l' h'
    ∧ h' !! l' = Some out
    ∧ ∀ key, key ∈ Pandas.columns out ↔ ∃ e, key = VStr e ∧ e ∈ COLUMNS.
Proof.
  by apply (normalize_columns_labels float_repr_special [sheet_mw_twice] 0 sheet_mw_twice).
Defined.

(** X10. On a sheet where no two raw columns match the same expected name
    the frame returned has exactly the eight expected columns, in the
    expected order. *)
Theorem normalize_columns_exact float_repr (h : heap) (l : loc) (d : DataFrame) :
  h !! l = Some d →
  unambiguous float_repr d →
  ∃ l' h' out,
    normalize_columns float_repr l h = Ok l' h'
    ∧ h' !! l' = Some out
    ∧ Pandas.columns out = VStr <$> COLUMNS.
Proof.
  intros Hl Hd.
  destruct (normalize_columns_returns float_repr h l d Hl) as (l' & h' & Hrun & Hout & _).
  exists l', h', (normalized float_repr d). split; [done|]. split; [done|].
  by apply normalized_unambiguous.
Qed.

Lemma normalize_columns_exact_witness :
  ∃ l' h' out,
    normalize_columns float_repr_special 0 [sheet_three_fields] = Ok l' h'
    ∧ h' !! l' = Some out
    ∧ Pandas.columns out = VStr <$> COLUMNS.
Proof.
  apply (normalize_columns_exact float_repr_special [sheet_three_fields] 0
           sheet_three_fields); [done|].
  intros e j j' c c' vs vs' He Hj Hj' Hc Hc'.
  assert (∀ k c0 vs0, cols sheet_three_fields !! k = Some (c0, vs0) →
            PyStr.lower (label_text float_repr_special c0) = PyStr.lower e →
            e = "Project Name" ∧ k = 0 ∨ e = "Company" ∧ k = 1 ∨ e = "MW" ∧ k = 2) as Hpos.
  { clear -He. intros k c0 vs0 Hk Hlow.
    unfold COLUMNS in He. rewrite !elem_of_cons, elem_of_nil in He.
    destruct He as [->|[->|[->|[->|[->|[->|[->|[->|[]]]]]]]]];
      destruct k as [|[|[|[|k]]]]; simplify_eq/=;
      try (by vm_compute in Hlow); auto. }
  destruct (Hpos _ _ _ Hj Hc) as [[-> ->]|[[-> ->]|[-> ->]]],
    (Hpos _ _ _ Hj' Hc') as [[? ->]|[[? ->]|[? ->]]]; done.
Defined.

(** X11. An expected name that no raw column matches (up to letter case
    and surrounding whitespace) labels exactly one column of the result,
    filled with the empty string in every row. *)
Theorem normalize_columns_blank float_repr (h : heap) (l : loc) (d : DataFrame)
    (e : string) :
  h !! l = Some d →
  e ∈ COLUMNS →
  (∀ j c vs, cols d !! j = Some (c, vs) →
     PyStr.lower (PyStr.strip (py_str float_repr c)) ≠ PyStr.lower e) →
  ∃ l' h' out,
    normalize_columns float_repr l h = Ok l' h'
    ∧ h' !! l' = Some out
    ∧ filter (λ col, col.1 = VStr e) (cols out) =
        [(VStr e, replicate (nrows d) (VStr ""))].
Proof.
  intros Hl He Hnone.
  destruct (normalize_columns_returns float_repr h l d Hl) as (l' & h' & Hrun & Hout & _).
  exists l', h', (normalized float_repr d). split; [done|]. split; [done|].
  by apply unmatched_column.
Qed.

Lemma normalize_columns_blank_witness :
  ∃ l' h' out,
    normalize_columns float_repr_special 0 [sheet_mw_twice] = Ok l' h'
    ∧ h' !! l' = Some out
    ∧ filter (λ col, col.1 = VStr "Sources") (cols out) =
        [(VStr "Sources", replicate (nrows sheet_mw_twice) (VStr ""))].
Proof.
  apply (normalize_columns_blank float_repr_special [sheet_mw_twice] 0 sheet_mw_twice).
  - done.
  - apply (bool_decide_unpack _). by vm_compute.
  - intros [|[|j]] c vs Hj; simplify_eq/=; by vm_compute.
Defined.

(** X12. [normalize_columns] keeps the rows: the frame returned has as
    many rows as the sheet, and when every column of the sheet holds one
    cell per row, so does every column of the result. *)
Theorem normalize_columns_rows float_repr (h : heap) (l : loc) (d : DataFrame) :
  h !! l = Some d →
  well_formed d →
  ∃ l' h' out,
    normalize_columns float_repr l h = Ok l' h'
    ∧ h' !! l' = Some out
    ∧ nrows out = nrows d
    ∧ well_formed out.
Proof.
  intros Hl Hwf.
  destruct (normalize_columns_returns float_repr h l d Hl) as (l' & h' & Hrun & Hout & _).
  exists l', h', (normalized float_repr d). split; [done|]. split; [done|].
  destruct (KeptFacts.kept_normalized float_repr d) as [Hrows Hcols].
  split; [done|]. intros col Hcol. rewrite Hrows.
  destruct (Hcols col Hcol) as [[c Hc]| ->].
  - apply (Hwf _ Hc).
  - apply length_replicate.
Qed.

Lemma normalize_columns_rows_witness :
  ∃ l' h' out,
    normalize_columns float_repr_special 0 [sheet_three_fields] = Ok l' h'
    ∧ h' !! l' = Some out
    ∧ nrows out = nrows sheet_three_fields
    ∧ well_formed out.
Proof.
  apply (normalize_columns_rows float_repr_special [sheet_three_fields] 0
           sheet_three_fields); [done|].
  intros col Hcol. simpl in Hcol.
  repeat (apply elem_of_cons in Hcol as [->|Hcol]; [done|]).
  by apply elem_of_nil in Hcol.
Defined.

(** X13. [normalize_columns] never alters a cell: every column of the
    frame returned holds the cells of one raw column, as they were, or is a
    column of empty strings. *)
Theorem normalize_columns_cells float_repr (h : heap) (l : loc) (d : DataFrame) :
  h !! l = Some d →
  ∃ l' h' out,
    normalize_columns float_repr l h = Ok l' h'
    ∧ h' !! l' = Some out
    ∧ ∀ key vs, (key, vs) ∈ cols out →
        (∃ c, (c, vs) ∈ cols d) ∨ vs = replicate (nrows d) (VStr "").
Proof.
  intros Hl.
  destruct (normalize_columns_returns float_repr h l d Hl) as (l' & h' & Hrun & Hout & _).
  exists l', h', (normalized float_repr d). split; [done|]. split; [done|].
  intros key vs Hcol.
  destruct (KeptFacts.kept_normalized float_repr d) as [_ Hcols].
  apply (Hcols (key, vs) Hcol).
Qed.

Lemma normalize_columns_cells_witness :
  ∃ l' h' out,
    normalize_columns float_repr_special 0 [sheet_mw_two_cases] = Ok l' h'
    ∧ h' !! l' = Some out
    ∧ ∀ key vs, (key, vs) ∈ cols out →
        (∃ c, (c, vs) ∈ cols sheet_mw_two_cases)
        ∨ vs = replicate (nrows sheet_mw_two_cases) (VStr "").
Proof.
  by apply (normalize_columns_cells float_repr_special [sheet_mw_two_cases] 0
              sheet_mw_two_cases).
Defined.

(** X14. [normalize_columns] works on copies: for every frame of the store
    it returns a frame at a location that was not in use before the call,
    and every object that was in the store is left as it was. *)
Theorem normalize_columns_fresh float_repr (h : heap) (l : loc) (d : DataFrame) :
  h !! l = Some d →
  ∃ l' h',
    normalize_columns float_repr l h = Ok l' h'
    ∧ h !! l' = None
    ∧ is_Some (h' !! l')
    ∧ ∀ k x, h !! k = Some x → h' !! k = Some x.
Proof.
  intros Hl. eexists (length h + 3), _.
  split; [by apply normalize_columns_run|]. split; [|split].
  - apply lookup_ge_None. lia.
  - rewrite lookup_app_r by lia.
    replace (length h + 3 - length h) with 3 by lia. simpl. eauto.
  - intros k x Hk. by apply lookup_app_l_Some.
Qed.

Lemma normalize_columns_fresh_witness :
  ∃ l' h',
    normalize_columns float_repr_special 0 [sheet_mw_twice] = Ok l' h'
    ∧ [sheet_mw_twice] !! l' = None
    ∧ is_Some (h' !! l')
    ∧ ∀ k x, [sheet_mw_twice] !! k = Some x → h' !! k = Some x.
Proof.
  by apply (normalize_columns_fresh float_repr_special [sheet_mw_twice] 0 sheet_mw_twice).
Defined.

(** ** Loading, again *)

Module LoadFacts.

Lemma load_df_body_parsed float_repr w path (h : heap) d :
  path_exists w path = true → parse_excel w path = inr d →
  ∃ l h', load_df_body float_repr w path h = Ok l h'
          ∧ h' !! l = Some (normalized float_repr d).
Proof.
  intros Hex Hd. unfold load_df_body, pd_read_excel. rewrite Hex, Hd. simpl.
  destruct (normalize_columns_returns float_repr (h ++ [d]) (length h) d)
    as (l & h' & Hrun & Hout & _); [by rewrite list_lookup_middle|].
  exists l, h'. split; [|done].
  by rewrite (StoreFacts.bind_Ok _ _ _ _ _ (eq_refl : alloc d h = Ok _ _)).
Qed.

(** A call that returns leaves the frame it returned in the cache, under
    the path. *)
Lemma load_df_Ok float_repr w path cache (h : heap) l h' cache' :
  load_df float_repr w path cache h = (Ok l h', cache') →
  ∃ out, h' !! l = Some out ∧ cache' !! path = Some out.
Proof.
  unfold load_df. destruct (cache !! path) as [d|] eqn:Hc.
  - intros [= <- <- <-]. exists d. split; [|done]. by rewrite list_lookup_middle.
  - destruct (load_df_body float_repr w path h) as [l0 h0|e]; [|done].
    destruct (h0 !! l0) as [d|] eqn:Hd; [|done].
    intros [= <- <- <-]. exists d. split; [done|]. by rewrite lookup_insert_eq.
Qed.

(** A first call that finds the file and can parse it. *)
Lemma load_df_miss float_repr w path cache (h : heap) d :
  cache !! path = None →
  path_exists w path = true → parse_excel w path = inr d →
  ∃ l h', load_df float_repr w path cache h =
            (Ok l h', <[path := normalized float_repr d]> cache)
          ∧ h' !! l = Some (normalized float_repr d).
Proof.
  intros Hmiss Hex Hd.
  destruct (load_df_body_parsed float_repr w path h d Hex Hd)
    as (l & h' & Hrun & Hout).
  exists l, h'. unfold load_df. by rewrite Hmiss, Hrun, Hout.
Qed.

End LoadFacts.

(** X15. [load_df] is memoised by path: once a call has returned a frame,
    every later call for the same path returns a new frame with the same
    contents and leaves the cache as it is, whatever the file system then
    holds. *)
Theorem load_df_memoised float_repr (w : world) (path : string)
    (cache cache' : gmap string DataFrame) (h h' : heap) (l : loc) :
  load_df float_repr w path cache h = (Ok l h', cache') →
  ∃ out,
    h' !! l = Some out
    ∧ ∀ (w2 : world) (h2 : heap),
        load_df float_repr w2 path cache' h2 = (Ok (length h2) (h2 ++ [out]), cache').
Proof.
  intros (out & Hout & Hc)%LoadFacts.load_df_Ok. exists out. split; [done|].
  intros w2 h2. unfold load_df. by rewrite Hc.
Qed.

Lemma load_df_memoised_witness :
  ∃ out,
    ∀ (w2 : world) (h2 : heap),
      load_df float_repr_special w2 EXCEL_FILE
        (<[EXCEL_FILE := normalized float_repr_special sheet_three_fields]> ∅) h2 =
        (Ok (length h2) (h2 ++ [out]),
         <[EXCEL_FILE := normalized float_repr_special sheet_three_fields]> ∅).
Proof.
  destruct (LoadFacts.load_df_miss float_repr_special world_present EXCEL_FILE ∅ []
              sheet_three_fields (lookup_empty _) eq_refl eq_refl)
    as (l & h' & Hload & _).
  destruct (load_df_memoised _ _ _ _ _ _ _ _ Hload) as (out & _ & Hagain).
  by exists out.
Defined.

(** X16. A failed load is not memoised: the cache is left as it was, and a
    later call that finds the file and can parse it returns the normalised
    frame. *)
Theorem load_df_failure_not_cached float_repr (w : world) (path : string)
    (cache : gmap string DataFrame) (h : heap) (e : exn) :
  (load_df float_repr w path cache h).1 = Raise e →
  (load_df float_repr w path cache h).2 = cache
  ∧ ∀ (w2 : world) (h2 : heap) (d : DataFrame),
      path_exists w2 path = true → parse_excel w2 path = inr d →
      ∃ l2 h2',
        (load_df float_repr w2 path (load_df float_repr w path cache h).2 h2).1 =
          Ok l2 h2'
        ∧ h2' !! l2 = Some (normalized float_repr d).
Proof.
  intros Hraise.
  assert ((load_df float_repr w path cache h).2 = cache ∧ cache !! path = None)
    as [Hcache Hmiss].
  { unfold load_df in *. destruct (cache !! path) as [d|]; [done|].
    destruct (load_df_body float_repr w path h) as [l0 h0|e0]; [|done].
    by destruct (h0 !! l0). }
  split; [done|]. intros w2 h2 d Hex Hd. rewrite Hcache.
  destruct (LoadFacts.load_df_body_parsed float_repr w2 path h2 d Hex Hd)
    as (l2 & h2' & Hrun & Hout).
  exists l2, h2'. unfold load_df. by rewrite Hmiss, Hrun, Hout.
Qed.

Lemma load_df_failure_not_cached_witness :
  (load_df float_repr_special world_gone EXCEL_FILE ∅ []).2 = ∅
  ∧ ∀ (w2 : world) (h2 : heap) (d : DataFrame),
      path_exists w2 EXCEL_FILE = true → parse_excel w2 EXCEL_FILE = inr d →
      ∃ l2 h2',
        (load_df float_repr_special w2 EXCEL_FILE
           (load_df float_repr_special world_gone EXCEL_FILE ∅ []).2 h2).1 = Ok l2 h2'
        ∧ h2' !! l2 = Some (normalized float_repr_special d).
Proof.
  apply (load_df_failure_not_cached float_repr_special world_gone EXCEL_FILE ∅ []
           SourceNotFound).
  reflexivity.
Defined.

(** X17. [load_df] never touches what is memoised for another path. *)
Theorem load_df_other_paths float_repr (w : world) (path other : string)
    (cache : gmap string DataFrame) (h : heap) :
  other ≠ path →
  (load_df float_repr w path cache h).2 !! other = cache !! other.
Proof.
  intros Hne. unfold load_df. destruct (cache !! path) as [d|]; [done|].
  destruct (load_df_body float_repr w path h) as [l0 h0|e0]; [|done].
  destruct (h0 !! l0); [|done]. simpl. by rewrite lookup_insert_ne.
Qed.

Lemma load_df_other_paths_witness :
  (load_df float_repr_special world_present EXCEL_FILE ∅ []).2 !! "other.xlsx" =
    (∅ : gmap string DataFrame) !! "other.xlsx".
Proof. by apply load_df_other_paths. Defined.

(** ** Styles of the table rows *)

Module StyleFacts.

Lemma label_dict_snoc {V} (items : list (value * V)) kv k :
  label_dict (items ++ [kv]) k =
    if decide (k = kv.1) then Some kv.2 else label_dict items k.
Proof. unfold label_dict. by rewrite fold_left_app. Qed.

Lemma label_dict_elem_of {V} (items : list (value * V)) k v :
  label_dict items k = Some v → (k, v) ∈ items.
Proof.
  induction items as [|kv items IH] using rev_ind; [done|].
  rewrite label_dict_snoc. destruct (decide (k = kv.1)) as [->|Hne].
  - intros [= <-]. apply elem_of_app. right. destruct kv. apply list_elem_of_singleton.
    done.
  - intros H. apply elem_of_app. left. by apply IH.
Qed.

Lemma label_dict_NoDup {V} (items : list (value * V)) k v :
  NoDup items.*1 → (k, v) ∈ items → label_dict items k = Some v.
Proof.
  induction items as [|kv items IH] using rev_ind; [by intros _ ?%elem_of_nil|].
  rewrite fmap_app, label_dict_snoc. simpl.
  intros (Hitems & Hfresh & _)%NoDup_app [Hin|Hin%list_elem_of_singleton]%elem_of_app.
  - rewrite decide_False; [by apply IH|]. intros ->.
    apply (Hfresh kv.1); [|apply list_elem_of_singleton; done].
    apply list_elem_of_fmap. by exists (kv.1, v).
  - subst kv. simpl. by rewrite decide_True.
Qed.

Lemma label_dict_absent {V} (items : list (value * V)) k :
  k ∉ items.*1 → label_dict items k = None.
Proof.
  intros Hk. destruct (label_dict items k) as [v|] eqn:Hd; [|done].
  apply label_dict_elem_of in Hd. destruct Hk.
  apply list_elem_of_fmap. by exists (k, v).
Qed.

Lemma enumerate_labels_elem_of labels k i :
  (k, i) ∈ enumerate_labels labels ↔ labels !! i = Some k.
Proof.
  unfold enumerate_labels. rewrite elem_of_lookup_imap. split.
  - by intros (j & c & [= -> ->] & Hj).
  - intros Hi. by exists i, k.
Qed.

Lemma enumerate_labels_keys labels : (enumerate_labels labels).*1 = labels.
Proof.
  apply list_eq. intros i. unfold enumerate_labels.
  rewrite list_lookup_fmap, list_lookup_imap. by destruct (labels !! i).
Qed.

(** What [col_to_idx] holds. *)
Lemma col_to_idx_Some labels k i :
  label_dict (enumerate_labels labels) k = Some i → labels !! i = Some k.
Proof. by intros ?%label_dict_elem_of%enumerate_labels_elem_of. Qed.

Lemma col_to_idx_NoDup labels k i :
  NoDup labels → labels !! i = Some k →
  label_dict (enumerate_labels labels) k = Some i.
Proof.
  intros Hnd Hi. apply label_dict_NoDup.
  - by rewrite enumerate_labels_keys.
  - by apply enumerate_labels_elem_of.
Qed.

Lemma lookup_add_style css j styles i :
  add_style css j styles !! i =
    if decide (i = j) then (λ s, s +:+ css) <$> styles !! i else styles !! i.
Proof.
  unfold add_style. destruct (decide (i = j)) as [->|Hne].
  - by rewrite list_lookup_alter_eq.
  - by rewrite list_lookup_alter_ne.
Qed.

Lemma length_add_style css j styles :
  length (add_style css j styles) = length styles.
Proof. apply length_alter. Qed.

Lemma series_get_unique series_repr (row : list (value * value)) k v default :
  NoDup row.*1 → (k, v) ∈ row → series_get series_repr row k default = v.
Proof.
  intros Hnd Hin. unfold series_get.
  assert (filter (λ kv : value * value, kv.1 = k) row = [(k, v)]) as ->; [|done].
  induction row as [|[k' v'] row IH]; [by apply elem_of_nil in Hin|].
  rewrite fmap_cons in Hnd. apply NoDup_cons in Hnd as [Hfresh Hnd].
  apply elem_of_cons in Hin as [[= <- <-]|Hin].
  - rewrite filter_cons_True by done. f_equal.
    apply FrameFacts.filter_none. intros [k2 v2] Hin2 Hk. simpl in *. subst k2.
    destruct Hfresh. apply list_elem_of_fmap. by exists (k, v2).
  - rewrite filter_cons_False; [by apply IH|]. simpl. intros ->.
    destruct Hfresh. apply list_elem_of_fmap. by exists (k, v).
Qed.

(** The style of each cell of a row with distinct labels. *)
Lemma style_rows_lookup float_repr series_repr (row : list (value * value))
    (i : nat) (k v : value) :
  NoDup row.*1 →
  row !! i = Some (k, v) →
  style_rows float_repr series_repr row !! i =
    Some (if decide (k = VStr "Project Name")
          then BOLD +:+
               (if bool_decide (row_flag (safe_str float_repr v) = "g") then GREEN
                else if bool_decide (row_flag (safe_str float_repr v) = "r") then RED
                else "")
          else if decide (k = VStr "Company") then BOLD
          else "").
Proof.
  intros Hnd Hi.
  assert (row.*1 !! i = Some k) as Hk by (by rewrite list_lookup_fmap, Hi).
  assert (label_dict (enumerate_labels row.*1) k = Some i) as Hidx
    by (by apply col_to_idx_NoDup).
  assert (replicate (length row) "" !! i = Some "") as Hrep.
  { apply lookup_replicate_2. by apply lookup_lt_Some in Hi. }
  assert (k = VStr "Project Name" →
          series_get series_repr row (VStr "Project Name") (VStr "") = v) as Hget.
  { intros ->. apply series_get_unique; [done|].
    by eapply list_elem_of_lookup_2. }
  unfold style_rows. cbn [fold_left].
  destruct (label_dict (enumerate_labels row.*1) (VStr "Project Name"))
    as [a|] eqn:Ha;
    destruct (label_dict (enumerate_labels row.*1) (VStr "Company"))
      as [b|] eqn:Hb.
  all: try (apply col_to_idx_Some in Ha as Ha').
  all: try (apply col_to_idx_Some in Hb as Hb').
  all: destruct (decide (k = VStr "Project Name")) as [Hpn|Hpn].
  all: try (rewrite (Hget Hpn)); try subst k.
  all: repeat case_bool_decide.
  all: rewrite ?lookup_add_style, ?Hrep.
  all: repeat case_decide.
  all: try congruence.
  all: try reflexivity.
  all: idtac.
Qed.

Lemma length_style_rows float_repr series_repr (row : list (value * value)) :
  length (style_rows float_repr series_repr row) = length row.
Proof.
  unfold style_rows. cbn [fold_left].
  repeat first
    [ rewrite length_add_style
    | match goal with |- context [match ?x with _ => _ end] => destruct x end ];
    apply length_replicate.
Qed.

End StyleFacts.

(** X18. [style_rows] returns one style per cell of the row, whatever the
    labels of the row are, repeated ones included: the shape that
    [Styler.apply] asks for. *)
Theorem style_rows_length float_repr series_repr (row : list (value * value)) :
  length (style_rows float_repr series_repr row) = length row.
Proof. apply StyleFacts.length_style_rows. Qed.

(** X19. On a row whose labels are distinct, [style_rows] gives the cell
    under [Project Name] the bold style followed by the colour of the flag
    of its own text (green for [g], red for [r], none otherwise), the cell
    under [Company] the bold style alone, and every other cell the empty
    style. *)
Theorem style_rows_cells float_repr series_repr (row : list (value * value))
    (i : nat) (k v : value) :
  NoDup row.*1 →
  row !! i = Some (k, v) →
  style_rows float_repr series_repr row !! i =
    Some (if decide (k = VStr "Project Name")
          then BOLD +:+
               (if bool_decide (row_flag (safe_str float_repr v) = "g") then GREEN
                else if bool_decide (row_flag (safe_str float_repr v) = "r") then RED
                else "")
          else if decide (k = VStr "Company") then BOLD
          else "").
Proof. apply StyleFacts.style_rows_lookup. Qed.

Lemma style_rows_cells_witness :
  style_rows float_repr_special (λ _, "")
    [ (VStr "Project Name", VStr " Sambar Power"); (VStr "Company", VStr "Acme");
      (VStr "MW", VInt 50) ] !! 0 =
    Some (BOLD +:+ GREEN).
Proof.
  apply (style_rows_cells float_repr_special (λ _, "")
           [ (VStr "Project Name", VStr " Sambar Power"); (VStr "Company", VStr "Acme");
             (VStr "MW", VInt 50) ] 0 (VStr "Project Name") (VStr " Sambar Power")).
  - apply (bool_decide_unpack _). by vm_compute.
  - reflexivity.
Defined.

(** ** The rows shown expanded *)

Module OpenFacts.

Lemma elem_of_expand_all d i : i ∈ expand_all d ↔ i < nrows d.
Proof.
  unfold expand_all. rewrite elem_of_list_to_set, elem_of_seq. lia.
Qed.

Lemma elem_of_selected_rows event i :
  i ∈ selected_rows event →
  ∃ selection rows, event = Some selection ∧ selection !! "rows" = Some rows ∧ i ∈ rows.
Proof.
  unfold selected_rows. destruct event as [selection|]; [|by intros ?%elem_of_empty].
  case_bool_decide; [by intros ?%elem_of_empty|].
  rewrite elem_of_list_to_set.
  destruct (selection !! "rows") as [rows|] eqn:Hrows; simpl.
  - by exists selection, rows.
  - by intros ?%elem_of_nil.
Qed.

Lemma sorted_elem_of rows i : i ∈ sorted rows ↔ i ∈ rows.
Proof. unfold sorted. by rewrite merge_sort_Permutation, elem_of_elements. Qed.

Lemma mapM_keys {A B} (f : A → option B) (l : list A) (k : list (A * B)) :
  mapM (λ i, row ← f i; Some (i, row)) l = Some k → k.*1 = l.
Proof.
  revert k. induction l as [|i l IH]; intros k; simpl.
  - by intros [= <-].
  - destruct (f i) as [row|]; [|done]. simpl.
    destruct (mapM (λ i, row ← f i; Some (i, row)) l) as [k'|]; [|done]. simpl.
    intros [= <-]. simpl. f_equal. by apply IH.
Qed.

End OpenFacts.

(** X20. When Collapse all was clicked or rows are selected in the table,
    the open rows after the run are exactly the selected rows: the button
    closes the rows opened by Expand all or kept from earlier runs but
    never a selected one, and a selection replaces whatever was open. *)
Theorem run_open_rows_selection (d : DataFrame) (expand_clicked collapse_clicked : bool)
    (event : option (gmap string (list nat))) (state : option (gset nat)) :
  collapse_clicked = true ∨ selected_rows event ≠ ∅ →
  run_open_rows d expand_clicked collapse_clicked event state = selected_rows event.
Proof.
  unfold run_open_rows, collapse_all. intros [->|Hsel]; case_bool_decide; done.
Qed.

Lemma run_open_rows_selection_witness :
  run_open_rows sheet_three_fields true true (Some {[ "rows" := [1] ]}) (Some {[ 0 ]}) =
    selected_rows (Some {[ "rows" := [1] ]}).
Proof. apply run_open_rows_selection. by left. Defined.

(** X21. Open rows stay row positions of the frame: when the rows kept
    from the run before and the rows selected in the table are all below
    the number of rows, so are the open rows after the run, whichever
    buttons were clicked. *)
Theorem run_open_rows_in_range (d : DataFrame) (expand_clicked collapse_clicked : bool)
    (event : option (gmap string (list nat))) (state : option (gset nat)) :
  (∀ open_rows i, state = Some open_rows → i ∈ open_rows → i < nrows d) →
  (∀ selection rows i,
     event = Some selection → selection !! "rows" = Some rows → i ∈ rows →
     i < nrows d) →
  ∀ i, i ∈ run_open_rows d expand_clicked collapse_clicked event state → i < nrows d.
Proof.
  intros Hstate Hevent i. unfold run_open_rows. case_bool_decide as Hsel.
  - destruct collapse_clicked; [by intros ?%elem_of_empty|].
    destruct expand_clicked; [by intros ?%OpenFacts.elem_of_expand_all|].
    unfold init_open_rows. destruct state as [open_rows|]; simpl.
    + by apply Hstate.
    + by intros ?%elem_of_empty.
  - intros (selection & rows & -> & Hrows & Hi)%OpenFacts.elem_of_selected_rows.
    by eapply Hevent.
Qed.

Lemma run_open_rows_in_range_witness :
  Forall (λ i, i < nrows sheet_three_fields)
    (elements (run_open_rows sheet_three_fields true false
                 (Some {[ "rows" := [1; 0] ]}) (Some {[ 1 ]}))).
Proof.
  apply Forall_forall. intros i Hi%elem_of_elements. revert i Hi.
  apply (run_open_rows_in_range sheet_three_fields true false
           (Some {[ "rows" := [1; 0] ]}) (Some {[ 1 ]})).
  - intros open_rows i [= <-] ->%elem_of_singleton. simpl. lia.
  - intros selection rows i [= <-]. rewrite lookup_singleton_eq. intros [= <-] Hi.
    simpl. repeat (apply elem_of_cons in Hi as [->|Hi]); [lia..|].
    by apply elem_of_nil in Hi.
Defined.

(** X22. The detail loop visits every open row once, in ascending order of
    position, and when the open rows are row positions of the frame no
    [df.loc[i]] of the loop raises. *)
Theorem detail_rows_sorted (d : DataFrame) (open_rows : gset nat) :
  (∀ i, i ∈ open_rows → i < nrows d) →
  ∃ rows,
    detail_rows d open_rows = Some rows
    ∧ Sorted lt rows.*1
    ∧ NoDup rows.*1
    ∧ (∀ i, i ∈ rows.*1 ↔ i ∈ open_rows)
    ∧ ∀ i row, (i, row) ∈ rows → df_loc d i = Some row.
Proof.
  intros Hrange.
  destruct (detail_rows d open_rows) as [rows|] eqn:Hrows.
  - exists rows. split; [done|].
    pose proof (OpenFacts.mapM_keys _ _ _ Hrows) as Hkeys.
    assert (NoDup (sorted open_rows)) as Hnd.
    { unfold sorted. rewrite merge_sort_Permutation. apply NoDup_elements. }
    assert (Sorted le (sorted open_rows)) as Hle.
    { unfold sorted. apply (Sorted_merge_sort (≤)). }
    rewrite Hkeys. split_and!.
    + apply (Sorted_StronglySorted _) in Hle. clear Hkeys Hrows.
      induction Hle as [|i l Hl IH Hall]; [constructor|].
      apply NoDup_cons in Hnd as [Hi Hnd]. constructor; [by apply IH|].
      destruct l as [|j l]; constructor.
      apply Forall_cons in Hall as [Hij _].
      assert (i ≠ j) by (intros ->; apply Hi; left). lia.
    + done.
    + intros i. apply OpenFacts.sorted_elem_of.
    + intros i row Hin. unfold detail_rows in Hrows.
      apply mapM_Some_1 in Hrows.
      apply list_elem_of_lookup in Hin as [n Hn].
      destruct (Forall2_lookup_r _ _ _ _ _ Hrows Hn) as (j & _ & Hj).
      simpl in Hj. destruct (df_loc d j) as [row'|] eqn:Hloc; by simplify_eq/=.
  - exfalso. unfold detail_rows in Hrows.
    assert (is_Some (mapM (λ i, row ← df_loc d i; Some (i, row)) (sorted open_rows)))
      as [rows Hsome]; [|congruence].
    apply mapM_is_Some, Forall_forall. intros i Hi%OpenFacts.sorted_elem_of. simpl.
    unfold df_loc. rewrite decide_True by by apply Hrange. by eexists.
Qed.

Lemma detail_rows_sorted_witness :
  ∃ rows,
    detail_rows sheet_three_fields {[ 1; 0 ]} = Some rows
    ∧ Sorted lt rows.*1
    ∧ NoDup rows.*1
    ∧ (∀ i, i ∈ rows.*1 ↔ i ∈ ({[ 1; 0 ]} : gset nat))
    ∧ ∀ i row, (i, row) ∈ rows → df_loc sheet_three_fields i = Some row.
Proof.
  apply (detail_rows_sorted sheet_three_fields {[ 1; 0 ]}).
  intros i [->%elem_of_singleton| ->%elem_of_singleton]%elem_of_union; simpl; lia.
Defined.

(** X23. A selected position outside the frame makes the detail loop raise:
    [df.loc[i]] is a [KeyError] there, and nothing is rendered by the
    model of the loop. *)
Theorem detail_rows_out_of_range (d : DataFrame) (open_rows : gset nat) (i : nat) :
  i ∈ open_rows → nrows d ≤ i → detail_rows d open_rows = None.
Proof.
  intros Hi Hge. destruct (detail_rows d open_rows) as [rows|] eqn:Hrows; [|done].
  exfalso. unfold detail_rows in Hrows.
  assert (is_Some (mapM (λ i, row ← df_loc d i; Some (i, row)) (sorted open_rows)))
    as Hsome by (by eexists).
  apply mapM_is_Some in Hsome. rewrite Forall_forall in Hsome.
  destruct (Hsome i) as [x Hx]; [by apply OpenFacts.sorted_elem_of|].
  simpl in Hx. unfold df_loc in Hx. rewrite decide_False in Hx by lia. done.
Qed.

Lemma detail_rows_out_of_range_witness :
  detail_rows sheet_three_fields {[ 0; 2 ]} = None.
Proof.
  apply (detail_rows_out_of_range sheet_three_fields {[ 0; 2 ]} 2).
  - apply elem_of_union. right. by apply elem_of_singleton.
  - simpl. lia.
Defined.

(** ** The table view and the image of a row *)

Module ViewFacts.

Lemma TABLE_VIEW_COLS_expected c : c ∈ TABLE_VIEW_COLS → c ∈ COLUMNS.
Proof.
  unfold TABLE_VIEW_COLS, COLUMNS. rewrite !elem_of_cons, !elem_of_nil. tauto.
Qed.

Lemma TABLE_VIEW_COLS_NoDup : NoDup (VStr <$> TABLE_VIEW_COLS).
Proof. apply (bool_decide_unpack _). by vm_compute. Qed.

Lemma view_contains float_repr d :
  forallb (λ k, Pandas.contains k (normalized float_repr d)) (VStr <$> TABLE_VIEW_COLS)
  = true.
Proof.
  apply forallb_forall. intros k Hk%list_elem_of_In.
  apply list_elem_of_fmap in Hk as (c & -> & Hc).
  apply FrameFacts.contains_spec, normalized_labels.
  exists c. split; [done|]. by apply TABLE_VIEW_COLS_expected.
Qed.

Lemma nrows_select keys d : nrows (Pandas.select keys d) = nrows d.
Proof. done. Qed.

Lemma select_columns_unique keys d :
  (∀ k, k ∈ keys → ∃ vs, filter (λ col, col.1 = k) (cols d) = [(k, vs)]) →
  Pandas.columns (Pandas.select keys d) = keys.
Proof.
  unfold Pandas.columns, Pandas.select. cbn [cols].
  induction keys as [|k keys IH]; intros Hkeys; [done|].
  rewrite bind_cons, fmap_app, IH by (intros k' ?; apply Hkeys; by right).
  destruct (Hkeys k) as [vs ->]; [by left|]. done.
Qed.

End ViewFacts.

(** X24. The table view never raises on the frame that
    [normalize_columns] returns: [df[TABLE_VIEW_COLS]] finds each of its
    five labels, the view has the rows of the sheet and no label but the
    five, and on a sheet where no two raw columns match the same expected
    name it has exactly the five columns, in the order of
    [TABLE_VIEW_COLS]. *)
Theorem df_view_of_normalized float_repr (h : heap) (l : loc) (d : DataFrame) :
  h !! l = Some d →
  ∃ l' h' out view,
    normalize_columns float_repr l h = Ok l' h'
    ∧ h' !! l' = Some out
    ∧ df_view out = Some view
    ∧ nrows view = nrows d
    ∧ (∀ key, key ∈ Pandas.columns view ↔ ∃ c, key = VStr c ∧ c ∈ TABLE_VIEW_COLS)
    ∧ (unambiguous float_repr d → Pandas.columns view = VStr <$> TABLE_VIEW_COLS).
Proof.
  intros Hl.
  destruct (normalize_columns_returns float_repr h l d Hl) as (l' & h' & Hrun & Hout & _).
  exists l', h', (normalized float_repr d),
    (Pandas.select (VStr <$> TABLE_VIEW_COLS) (normalized float_repr d)).
  split; [done|]. split; [done|]. split_and!.
  - unfold df_view, Pandas.getitem. by rewrite ViewFacts.view_contains.
  - rewrite ViewFacts.nrows_select. apply (KeptFacts.kept_normalized float_repr d).
  - intros key. rewrite FrameFacts.select_columns_elem, list_elem_of_fmap. split.
    + by intros [(c & -> & Hc) _]; eauto.
    + intros (c & -> & Hc). split; [eauto|].
      apply normalized_labels. exists c. split; [done|].
      by apply ViewFacts.TABLE_VIEW_COLS_expected.
  - intros Hd. apply ViewFacts.select_columns_unique.
    intros k (c & -> & Hc)%list_elem_of_fmap.
    by apply unambiguous_column, ViewFacts.TABLE_VIEW_COLS_expected.
Qed.

Lemma df_view_of_normalized_witness :
  ∃ l' h' out view,
    normalize_columns float_repr_special 0 [sheet_mw_twice] = Ok l' h'
    ∧ h' !! l' = Some out
    ∧ df_view out = Some view
    ∧ nrows view = nrows sheet_mw_twice
    ∧ (∀ key, key ∈ Pandas.columns view ↔ ∃ c, key = VStr c ∧ c ∈ TABLE_VIEW_COLS)
    ∧ (unambiguous float_repr_special sheet_mw_twice →
       Pandas.columns view = VStr <$> TABLE_VIEW_COLS).
Proof.
  by apply (df_view_of_normalized float_repr_special [sheet_mw_twice] 0 sheet_mw_twice).
Defined.

(** X25. The detail panel shows an image only for a file that exists, at
    the path joined from the base directory and the file name that
    [png_filename] gives for the text of the cell, a name that ends in
    [.png] in some letter case. *)
Theorem image_panel_image float_repr (os_path_join : string → string → string)
    (base_dir : string) (file_exists : string → bool) (png_cell : value)
    (path : string) :
  ui_image path ∈ image_panel float_repr os_path_join base_dir file_exists png_cell →
  file_exists path = true
  ∧ ∃ png,
      png_filename (safe_str float_repr png_cell) = Some png
      ∧ path = os_path_join base_dir png
      ∧ endswith ".png" (PyStr.lower png) = true.
Proof.
  unfold image_panel.
  destruct (png_filename (safe_str float_repr png_cell)) as [png|] eqn:Hpng.
  - destruct (file_exists (os_path_join base_dir png)) eqn:Hex.
    + intros [[=]|[[= ->]|[]%elem_of_nil]%elem_of_cons]%elem_of_cons.
      split; [done|]. exists png. split; [done|]. split; [done|].
      by apply (PngFacts.png_filename_ends _ _ Hpng).
    + by intros [[=]|[]%elem_of_nil]%elem_of_cons.
  - by intros [[=]|[]%elem_of_nil]%elem_of_cons.
Qed.

Lemma image_panel_image_witness :
  only_file "app/site.PNG" "app/site.PNG" = true
  ∧ ∃ png,
      png_filename (safe_str float_repr_special (VStr " site.PNG")) = Some png
      ∧ "app/site.PNG" = posix_join "app" png
      ∧ endswith ".png" (PyStr.lower png) = true.
Proof.
  apply (image_panel_image float_repr_special posix_join "app"
           (only_file "app/site.PNG") (VStr " site.PNG") "app/site.PNG").
  apply elem_of_cons. right. apply elem_of_cons. by left.
Defined.

(** X26. A row whose [PNG Name] cell is empty in the sheet ([None], a
    [nan] float, or text that is blank) gets the caption alone: neither an
    image nor a warning about a file [nan.png] or [None.png]. *)
Theorem image_panel_blank float_repr (os_path_join : string → string → string)
    (base_dir : string) (file_exists : string → bool) (png_cell : value) :
  png_cell = VNone
  ∨ (∃ x, png_cell = VFloat x ∧ isna x = true)
  ∨ (∃ s, png_cell = VStr s ∧ PyStr.all_chars PyStr.isspace s = true) →
  image_panel float_repr os_path_join base_dir file_exists png_cell =
    [ui_caption "No PNG Name for this row."].
Proof.
  intros Hcell. unfold image_panel.
  assert (png_filename (safe_str float_repr png_cell) = None) as ->; [|done].
  destruct Hcell as [->|[(x & -> & Hx)|(s & -> & Hs)]]; simpl.
  - done.
  - by rewrite Hx.
  - unfold png_filename. apply StripFacts.strip_blank in Hs. rewrite Hs. done.
Qed.

Lemma image_panel_blank_witness :
  image_panel float_repr_special posix_join "app" (only_file "app/nan.png")
    (VFloat S754_nan) =
    [ui_caption "No PNG Name for this row."].
Proof.
  apply (image_panel_blank float_repr_special).
  right. left. by exists S754_nan.
Defined.

(** ** The script on a row *)

Module ScriptFacts.

Lemma lookup_omap_seq {B} (g : nat → option B) a n i :
  (∀ j, a ≤ j < a + n → is_Some (g j)) → i < n →
  omap g (seq a n) !! i = g (a + i).
Proof.
  revert a i. induction n as [|n IH]; intros a i Hg Hi; [lia|].
  simpl. destruct (Hg a) as [y Hy]; [lia|]. rewrite Hy.
  destruct i as [|i]; simpl.
  - by rewrite Nat.add_0_r.
  - rewrite IH by (intros; try apply Hg; lia). f_equal. lia.
Qed.

Lemma length_omap_seq {B} (g : nat → option B) a n :
  (∀ j, a ≤ j < a + n → is_Some (g j)) → length (omap g (seq a n)) = n.
Proof.
  revert a. induction n as [|n IH]; intros a Hg; [done|].
  simpl. destruct (Hg a) as [y ->]; [lia|]. simpl.
  rewrite IH; [done|]. intros. apply Hg. lia.
Qed.

Lemma df_loc_labels d i row : df_loc d i = Some row → row.*1 = Pandas.columns d.
Proof.
  unfold df_loc, Pandas.columns. case_decide; [|done]. intros [= <-].
  rewrite <-list_fmap_compose. by apply list_fmap_ext.
Qed.

Lemma df_loc_is_Some d i : i < nrows d → is_Some (df_loc d i).
Proof. intros Hi. unfold df_loc. rewrite decide_True by done. by eexists. Qed.

End ScriptFacts.

(** X27. An empty [Sources] cell ([None], a [nan] float, or blank text)
    is rendered as the one dash: no bullet, and not the text [nan] or
    [None]. *)
Theorem render_sources_empty_cell float_repr (cell : value) (log : list st_call) :
  cell = VNone
  ∨ (∃ x, cell = VFloat x ∧ isna x = true)
  ∨ (∃ s, cell = VStr s ∧ PyStr.all_chars PyStr.isspace s = true) →
  render_sources (safe_str float_repr cell) log = log ++ [st_write_dash].
Proof.
  intros Hcell. apply SourcesFacts.render_sources_empty.
  destruct Hcell as [->|[(x & -> & Hx)|(s & -> & Hs)]]; simpl.
  - done.
  - by rewrite Hx.
  - by apply StripFacts.strip_blank.
Qed.

Lemma render_sources_empty_cell_witness :
  render_sources (safe_str float_repr_special (VFloat S754_nan)) [] =
    [] ++ [st_write_dash].
Proof.
  apply (render_sources_empty_cell float_repr_special).
  right. left. by exists S754_nan.
Defined.

(** X28. The styled table, end to end: for a sheet where no two raw
    columns match the same expected name, the styler gets one list of
    styles per row of the sheet, and the list of each row is bold plus the
    colour of the flag under [Project Name], bold under [Company] and the
    empty style under [MW], [Location] and [Connection date]. *)
Theorem style_df_of_view float_repr series_repr (h : heap) (l : loc) (d : DataFrame) :
  h !! l = Some d →
  unambiguous float_repr d →
  ∃ l' h' out view,
    normalize_columns float_repr l h = Ok l' h'
    ∧ h' !! l' = Some out
    ∧ df_view out = Some view
    ∧ length (style_df float_repr series_repr view) = nrows d
    ∧ ∀ i, i < nrows d →
        ∃ row name,
          df_loc view i = Some row
          ∧ row !! 0 = Some (VStr "Project Name", name)
          ∧ style_df float_repr series_repr view !! i =
              Some [ BOLD +:+
                     (if bool_decide (row_flag (safe_str float_repr name) = "g")
                      then GREEN
                      else if bool_decide (row_flag (safe_str float_repr name) = "r")
                      then RED else "");
                     BOLD; ""; ""; "" ].
Proof.
  intros Hl Hd.
  destruct (normalize_columns_returns float_repr h l d Hl) as (l' & h' & Hrun & Hout & _).
  set (view := Pandas.select (VStr <$> TABLE_VIEW_COLS) (normalized float_repr d)).
  exists l', h', (normalized float_repr d), view.
  assert (nrows view = nrows d) as Hrows.
  { unfold view. rewrite ViewFacts.nrows_select.
    apply (KeptFacts.kept_normalized float_repr d). }
  assert (Pandas.columns view = VStr <$> TABLE_VIEW_COLS) as Hcols.
  { apply ViewFacts.select_columns_unique.
    intros k (c & -> & Hc)%list_elem_of_fmap.
    by apply unambiguous_column, ViewFacts.TABLE_VIEW_COLS_expected. }
  split; [done|]. split; [done|]. split_and!.
  - unfold df_view, Pandas.getitem. by rewrite ViewFacts.view_contains.
  - unfold style_df. rewrite ScriptFacts.length_omap_seq; [done|].
    intros j Hj. destruct (ScriptFacts.df_loc_is_Some view j) as [row Hrow]; [lia|].
    rewrite Hrow. by eexists.
  - intros i Hi.
    destruct (ScriptFacts.df_loc_is_Some view i) as [row Hrow]; [lia|].
    pose proof (ScriptFacts.df_loc_labels _ _ _ Hrow) as Hlabels.
    rewrite Hcols in Hlabels.
    destruct row as [|[k0 v0] [|[k1 v1] [|[k2 v2] [|[k3 v3] [|[k4 v4] [|? ?]]]]]];
      try discriminate Hlabels.
    injection Hlabels as -> -> -> -> ->.
    exists [(VStr "Project Name", v0); (VStr "Company", v1); (VStr "MW", v2);
            (VStr "Location", v3); (VStr "Connection date", v4)], v0.
    split; [done|]. split; [done|].
    unfold style_df. rewrite ScriptFacts.lookup_omap_seq.
    + rewrite Nat.add_0_l, Hrow. cbn [fmap option_fmap option_map]. f_equal.
      assert (NoDup
        ([(VStr "Project Name", v0); (VStr "Company", v1); (VStr "MW", v2);
          (VStr "Location", v3); (VStr "Connection date", v4)].*1)) as Hnd
        by apply ViewFacts.TABLE_VIEW_COLS_NoDup.
      remember (row_flag (safe_str float_repr v0)) as f eqn:Hf.
      apply list_eq_same_length with 5.
      * done.
      * by rewrite StyleFacts.length_style_rows.
      * intros j x y Hj Hx Hy.
        destruct j as [|[|[|[|[|j]]]]]; [..|lia].
        all: erewrite StyleFacts.style_rows_lookup in Hx by (exact Hnd || reflexivity).
        all: rewrite <-?Hf in Hx.
        all: repeat (rewrite decide_True in Hx by reflexivity
                     || rewrite decide_False in Hx by discriminate).
        all: injection Hx as <-; injection Hy as <-; reflexivity.
    + intros j Hj. destruct (ScriptFacts.df_loc_is_Some view j) as [r Hr]; [lia|].
      rewrite Hr. by eexists.
    + lia.
Qed.

Lemma style_df_of_view_witness :
  ∃ l' h' out view,
    normalize_columns float_repr_special 0 [sheet_three_fields] = Ok l' h'
    ∧ h' !! l' = Some out
    ∧ df_view out = Some view
    ∧ length (style_df float_repr_special (λ _, "") view) = nrows sheet_three_fields
    ∧ ∀ i, i < nrows sheet_three_fields →
        ∃ row name,
          df_loc view i = Some row
          ∧ row !! 0 = Some (VStr "Project Name", name)
          ∧ style_df float_repr_special (λ _, "") view !! i =
              Some [ BOLD +:+
                     (if bool_decide (row_flag (safe_str float_repr_special name) = "g")
                      then GREEN
                      else if bool_decide (row_flag (safe_str float_repr_special name) = "r")
                      then RED else "");
                     BOLD; ""; ""; "" ].
Proof.
  apply (style_df_of_view float_repr_special (λ _, "") [sheet_three_fields] 0
           sheet_three_fields); [done|].
  intros e j j' c c' vs vs' He Hj Hj' Hc Hc'.
  assert (∀ k c0 vs0, cols sheet_three_fields !! k = Some (c0, vs0) →
            PyStr.lower (label_text float_repr_special c0) = PyStr.lower e →
            e = "Project Name" ∧ k = 0 ∨ e = "Company" ∧ k = 1 ∨ e = "MW" ∧ k = 2) as Hpos.
  { clear -He. intros k c0 vs0 Hk Hlow.
    unfold COLUMNS in He. rewrite !elem_of_cons, elem_of_nil in He.
    destruct He as [->|[->|[->|[->|[->|[->|[->|[->|[]]]]]]]]];
      destruct k as [|[|[|[|k]]]]; simplify_eq/=;
      try (by vm_compute in Hlow); auto. }
  destruct (Hpos _ _ _ Hj Hc) as [[-> ->]|[[-> ->]|[-> ->]]],
    (Hpos _ _ _ Hj' Hc') as [[? ->]|[[? ->]|[? ->]]]; done.
Defined.
